(** * postman-collection-to-html: the rendering core, embedded and verified

    A shallow embedding of the tree walker, the endpoint renderer, the
    slugifier, the variable normalizer and the boundary checks of
    [index.js] / [cli.js].

    Conventions of the embedding.
    - A JavaScript string is the list of its UTF-16 code units ([jsstring]).
    - The HTML text that the template literals build is kept as a tree
      ([html]): an element for every tag pair the template opens and closes,
      a [Text] node for every interpolated or literal piece of text (emitted
      verbatim, the source escapes nothing but parameter descriptions).  The
      indentation and line breaks between tags are not recorded.
    - The two generations of the walker differ only in where the labels come
      from (hard-coded in the single-file script, the translation table in
      the module).  The walker is embedded once, over a [Translations]
      record; [legacyLabels] gives the labels of the single-file script.
    - The collection is the parsed JSON read at the types of the data
      model: a name is a string, [item], [header], [query], [formdata] and
      [response] are arrays when they are there, every other field is an
      optional string.  A field that is missing and a field that is [null]
      are both [None].
    - What the JavaScript runtime and the Markdown library provide
      ([String.prototype.toLowerCase], [JSON.parse], [JSON.stringify],
      [showdown.Converter.makeHtml]) are variables of the section that holds
      the walker. *)

From Stdlib Require Import List ZArith NArith Bool Lia String Ascii.
From Stdlib Require Import DecimalString.
Import ListNotations.

Set Implicit Arguments.
Set Warnings "-register-all".

(* ------------------------------------------------------------------ *)
(** ** Strings as sequences of UTF-16 code units *)

Definition jsstring := list N.

Definition lit (s : string) : jsstring :=
  List.map N_of_ascii (list_ascii_of_string s).

Definition hyphen : N := 45.
Definition openBrace : N := 123.
Definition closeBrace : N := 125.
Definition lineFeed : N := 10.
Definition doubleQuote : N := 34.

Definition inRange (lo hi c : N) : bool := (lo <=? c)%N && (c <=? hi)%N.

Definition isHyphen (c : N) : bool := (c =? hyphen)%N.
Definition isUpper (c : N) : bool := inRange 65 90 c.
Definition isLowerOrDigit (c : N) : bool :=
  inRange 97 122 c || inRange 48 57 c || (c =? 95)%N.

(** [\w] without flags: [A-Za-z0-9_]. *)
Definition isWord (c : N) : bool := isUpper c || isLowerOrDigit c.

(** [\s]: the WhiteSpace and LineTerminator code points of ECMAScript. *)
Definition isSpace (c : N) : bool :=
  inRange 9 13 c || (c =? 32)%N || (c =? 160)%N || (c =? 5760)%N
  || inRange 8192 8202 c || (c =? 8232)%N || (c =? 8233)%N
  || (c =? 8239)%N || (c =? 8287)%N || (c =? 12288)%N || (c =? 65279)%N.

(** [[^\w\-]] *)
Definition notWordOrHyphen (c : N) : bool := negb (isWord c || isHyphen c).

(** What a slug is made of: lower-case word characters and hyphens. *)
Definition isSlugChar (c : N) : bool := isLowerOrDigit c || isHyphen c.

Fixpoint jseqb (a b : jsstring) : bool :=
  match a, b with
  | [], [] => true
  | x :: a', y :: b' => (x =? y)%N && jseqb a' b'
  | _, _ => false
  end.

Fixpoint startsWith (prefix s : jsstring) : bool :=
  match prefix, s with
  | [], _ => true
  | x :: p', y :: s' => (x =? y)%N && startsWith p' s'
  | _ :: _, [] => false
  end.

(** [String.prototype.includes] *)
Fixpoint includes (needle s : jsstring) : bool :=
  startsWith needle s ||
  match s with
  | [] => false
  | _ :: s' => includes needle s'
  end.

Fixpoint takeWhile (p : N -> bool) (s : jsstring) : jsstring :=
  match s with
  | c :: r => if p c then c :: takeWhile p r else []
  | [] => []
  end.

Fixpoint dropWhile (p : N -> bool) (s : jsstring) : jsstring :=
  match s with
  | c :: r => if p c then dropWhile p r else s
  | [] => []
  end.

(** [Array.prototype.join] on an array of strings. *)
Fixpoint join (sep : jsstring) (parts : list jsstring) : jsstring :=
  match parts with
  | [] => []
  | [p] => p
  | p :: rest => p ++ sep ++ join sep rest
  end.

(** [String.prototype.split] with a one-unit separator. *)
Fixpoint split (sep : N) (s : jsstring) : list jsstring :=
  match s with
  | [] => [[]]
  | c :: r =>
      if (c =? sep)%N then [] :: split sep r
      else match split sep r with
           | piece :: pieces => (c :: piece) :: pieces
           | [] => [[c]]
           end
  end.

(** [String.prototype.trim] *)
Definition trim (s : jsstring) : jsstring :=
  rev (dropWhile isSpace (rev (dropWhile isSpace s))).

(** *** Global regular-expression replacement

    [s.replace(/re/g, rep)] scans [s] from the left.  [matchAt] tells, for the
    text that starts at the current position, how many units the expression
    matches there (at least one) and what replaces them; after a match the
    scan resumes behind it, otherwise the unit is copied and the scan moves
    one unit on.  [skip] counts the units of the current match still to be
    passed over. *)
Fixpoint replaceAll (matchAt : jsstring -> option (nat * jsstring))
    (skip : nat) (s : jsstring) : jsstring :=
  match s with
  | [] => []
  | c :: r =>
      match skip with
      | S k => replaceAll matchAt k r
      | O =>
          match matchAt s with
          | Some (n, rep) => rep ++ replaceAll matchAt (pred n) r
          | None => c :: replaceAll matchAt 0 r
          end
      end
  end.

(** A character class repeated at least [least] times (greedy):
    [/[p]{least,}/]. *)
Definition runMatch (p : N -> bool) (least : nat) (rep : jsstring)
    (s : jsstring) : option (nat * jsstring) :=
  let n := List.length (takeWhile p s) in
  if (least <=? n)%nat && (1 <=? n)%nat then Some (n, rep) else None.

Definition replaceRuns (p : N -> bool) (least : nat) (rep s : jsstring)
  : jsstring :=
  replaceAll (runMatch p least rep) 0 s.

(** A literal pattern. *)
Definition literalMatch (pat rep s : jsstring) : option (nat * jsstring) :=
  match pat with
  | [] => None
  | _ :: _ => if startsWith pat s then Some (List.length pat, rep) else None
  end.

Definition replaceLiteral (pat rep s : jsstring) : jsstring :=
  replaceAll (literalMatch pat rep) 0 s.

(** [/\{\{([^}]+)\}\}/]: two opening braces, the longest run of units other
    than a closing brace (it may not be empty), two closing braces.  Giving
    back part of the run cannot help, the unit after a shorter run is not a
    closing brace: the greedy run decides.  The replacement ["$1"] is the
    run. *)
Definition placeholderMatch (s : jsstring) : option (nat * jsstring) :=
  match s with
  | a :: b :: r =>
      if (a =? openBrace)%N && (b =? openBrace)%N then
        let inner := takeWhile (fun c => negb (c =? closeBrace)%N) r in
        match inner with
        | [] => None
        | _ :: _ =>
            if startsWith [closeBrace; closeBrace]
                 (dropWhile (fun c => negb (c =? closeBrace)%N) r)
            then Some (List.length inner + 4, inner)
            else None
        end
      else None
  | _ => None
  end.

(** The lower-casing of the ASCII letters; it agrees with
    [String.prototype.toLowerCase] on ASCII text. *)
Definition asciiLower (s : jsstring) : jsstring :=
  List.map (fun c => if isUpper c then (c + 32)%N else c) s.

(* ------------------------------------------------------------------ *)
(** ** The collection (input) *)

(** [o] used as a condition: a string is truthy when it is not empty. *)
Definition truthy (o : option jsstring) : bool :=
  match o with
  | Some (_ :: _) => true
  | _ => false
  end.

(** [a || b] on optional strings. *)
Definition orElse (a b : option jsstring) : option jsstring :=
  if truthy a then a else b.

(** [o || "default"] *)
Definition orDefault (o : option jsstring) (d : jsstring) : jsstring :=
  match o with
  | Some ((_ :: _) as s) => s
  | _ => d
  end.

(** [o === "text"] *)
Definition optionIs (o : option jsstring) (text : jsstring) : bool :=
  match o with
  | Some s => jseqb s text
  | None => false
  end.

(** An optional string inside a template literal. *)
Definition interpolate (o : option jsstring) : jsstring :=
  match o with
  | Some s => s
  | None => lit "undefined"
  end.

(** Query parameters, headers and form-data entries. *)
Record Param := mkParam {
  key : option jsstring;
  value : option jsstring;
  paramDescription : option jsstring;
  paramType : option jsstring
}.

Inductive Url :=
| UrlString (s : jsstring)
| UrlObject (raw : option jsstring) (path : option (list jsstring))
    (query : option (list Param)).

(** [rawLanguage] is [body.options.raw.language] when the whole chain is
    there. *)
Record Body := mkBody {
  mode : option jsstring;
  bodyRaw : option jsstring;
  formdata : option (list Param);
  rawLanguage : option jsstring
}.

Record Request := mkRequest {
  method : option jsstring;
  url : option Url;
  header : option (list Param);
  body : option Body;
  requestDescription : option jsstring
}.

Record ResponseExample := mkResponse {
  responseHeader : option (list Param);
  previewLanguage : option jsstring;
  responseBody : option jsstring
}.

(** A node of the collection.  Folders and endpoints are one shape; what
    tells them apart is whether [item] is there. *)
Inductive Node :=
| mkNode (name : jsstring) (description : option jsstring)
    (item : option (list Node)) (request : option Request)
    (response : option (list ResponseExample)).

Definition name (n : Node) : jsstring :=
  match n with mkNode x _ _ _ _ => x end.
Definition description (n : Node) : option jsstring :=
  match n with mkNode _ x _ _ _ => x end.
Definition item (n : Node) : option (list Node) :=
  match n with mkNode _ _ x _ _ => x end.
Definition request (n : Node) : option Request :=
  match n with mkNode _ _ _ x _ => x end.
Definition response (n : Node) : option (list ResponseExample) :=
  match n with mkNode _ _ _ _ x => x end.

Record Info := mkInfo {
  infoName : jsstring;
  infoDescription : option jsstring
}.

Record Collection := mkCollection {
  info : Info;
  folders : list Node
}.

Definition isFolder (item0 : Node) : bool :=
  match item item0 with
  | Some _ => true
  | None => false
  end.

(** The children a node is walked into. *)
Definition children (n : Node) : list Node :=
  match item n with
  | Some l => l
  | None => []
  end.

(** Every node of a subtree, parents first. *)
Fixpoint preorder (n : Node) : list Node :=
  match n with
  | mkNode _ _ it _ _ =>
      n :: match it with
           | Some l => flat_map preorder l
           | None => []
           end
  end.


(* ------------------------------------------------------------------ *)
(** ** The labels *)

Record Translations := mkTranslations {
  documentationGenerated : jsstring;
  tableOfContents : jsstring;
  overview : jsstring;
  noDescriptionAvailable : jsstring;
  noRequestInfoAvailable : jsstring;
  queryParameters : jsstring;
  parameterLabel : jsstring;
  valueLabel : jsstring;
  descriptionLabel : jsstring;
  headersLabel : jsstring;
  nameLabel : jsstring;
  requestBody : jsstring;
  formData : jsstring;
  keyLabel : jsstring;
  typeLabel : jsstring;
  responseExample : jsstring;
  contentTypeLabel : jsstring;
  showAll : jsstring;
  collapse : jsstring
}.

(** The labels the single-file script writes into its templates. *)
Definition legacyLabels : Translations := {|
  documentationGenerated :=
    lit "Documentation g" ++ [233%N] ++ lit "n" ++ [233%N] ++ lit "r"
      ++ [233%N] ++ lit "e le";
  tableOfContents := lit "Table des mati" ++ [232%N] ++ lit "res";
  overview := lit "G" ++ [233%N] ++ lit "n" ++ [233%N] ++ lit "ralit"
      ++ [233%N] ++ lit "s";
  noDescriptionAvailable := lit "No description available.";
  noRequestInfoAvailable := lit "No request information available.";
  queryParameters := lit "Query Parameters";
  parameterLabel := lit "Parameter";
  valueLabel := lit "Value";
  descriptionLabel := lit "Description";
  headersLabel := lit "Headers";
  nameLabel := lit "Name";
  requestBody := lit "Request Body";
  formData := lit "Form Data";
  keyLabel := lit "Key";
  typeLabel := lit "Type";
  responseExample := lit "Response Examples";
  contentTypeLabel := lit "Content-Type";
  showAll := lit "Afficher tout";
  collapse := lit "R" ++ [233%N] ++ lit "duire"
|}.

(* ------------------------------------------------------------------ *)
(** ** The document (output) *)

Inductive tag :=
| T (tagName : string)
| H (level : Z).

Inductive html :=
| Text (s : jsstring)
| Elem (t : tag) (attrs : list (string * jsstring)) (content : list html).

Definition attrValues (k : string) (attrs : list (string * jsstring))
  : list jsstring :=
  List.map snd (List.filter (fun a => String.eqb (fst a) k) attrs).

(** The values of attribute [k] in a fragment, in document order. *)
Fixpoint attributes (k : string) (h : html) : list jsstring :=
  match h with
  | Text _ => []
  | Elem _ attrs cs => attrValues k attrs ++ flat_map (attributes k) cs
  end.

Definition hasClass (c : jsstring) (attrs : list (string * jsstring)) : bool :=
  existsb (jseqb c) (attrValues "class" attrs).

(** The elements whose class attribute is [c], in document order. *)
Fixpoint byClass (c : jsstring) (h : html) : list html :=
  match h with
  | Text _ => []
  | Elem _ attrs cs =>
      (if hasClass c attrs then [h] else []) ++ flat_map (byClass c) cs
  end.

Definition isTag (n : string) (t : tag) : bool :=
  match t with
  | T m => String.eqb n m
  | H _ => false
  end.

(** The elements with tag [n], in document order. *)
Fixpoint byTag (n : string) (h : html) : list html :=
  match h with
  | Text _ => []
  | Elem t _ cs => (if isTag n t then [h] else []) ++ flat_map (byTag n) cs
  end.

(** The text nodes of a fragment, one after the other. *)
Fixpoint textContent (h : html) : jsstring :=
  match h with
  | Text s => s
  | Elem _ _ cs => flat_map textContent cs
  end.

Definition headingLevel (h : html) : list Z :=
  match h with
  | Elem (H l) _ _ => [l]
  | _ => []
  end.

(** The levels of the headings that are the title of a [section], in
    document order. *)
Fixpoint sectionLevels (h : html) : list Z :=
  match h with
  | Text _ => []
  | Elem t _ cs =>
      (if isTag "section" t then flat_map headingLevel cs else [])
        ++ flat_map sectionLevels cs
  end.

Definition decimal (z : Z) : jsstring :=
  lit (NilEmpty.string_of_int (Z.to_int z)).

Definition tagText (t : tag) : jsstring :=
  match t with
  | T n => lit n
  | H l => lit "h" ++ decimal l
  end.

Definition renderAttr (a : string * jsstring) : jsstring :=
  lit " " ++ lit (fst a) ++ lit "=" ++ [doubleQuote] ++ snd a
    ++ [doubleQuote].

(** The text a fragment stands for. *)
Fixpoint render (h : html) : jsstring :=
  match h with
  | Text s => s
  | Elem t attrs cs =>
      lit "<" ++ tagText t ++ flat_map renderAttr attrs ++ lit ">"
        ++ flat_map render cs ++ lit "</" ++ tagText t ++ lit ">"
  end.

(* ------------------------------------------------------------------ *)
(** ** Variable normalizer *)

(** The string branch of [cleanPostmanVariables]:
    [text.replace(/\{\{([^}]+)\}\}/g, "$1")]. *)
Definition cleanText (text : jsstring) : jsstring :=
  replaceAll placeholderMatch 0 text.

(** [cleanPostmanVariables]: the argument is a string ([inl]) or some other
    value ([inr]), which is handed back as it came. *)
Definition cleanPostmanVariables (A : Type) (text : jsstring + A)
  : jsstring + A :=
  match text with
  | inl s => inl (cleanText s)
  | inr other => inr other
  end.

(** The seven replacements of [escapeHtml], the first innermost.  The last
    two patterns are the line feed and the two units backslash, [n]. *)
Definition escapeHtml (text : jsstring) : jsstring :=
  replaceLiteral (lit "\n") (lit "<br>")
    (replaceLiteral [lineFeed] (lit "<br>")
      (replaceLiteral (lit "'") (lit "&#039;")
        (replaceLiteral [doubleQuote] (lit "&quot;")
          (replaceLiteral (lit ">") (lit "&gt;")
            (replaceLiteral (lit "<") (lit "&lt;")
              (replaceLiteral (lit "&") (lit "&amp;") text)))))).

(** [formattedBody.split("\n").length] *)
Definition lineCount (formattedBody : jsstring) : Z :=
  Z.of_nat (List.length (split lineFeed formattedBody)).

(** The argument [getEndpointId] receives as [parentPath]. *)
Inductive PathArg :=
| PathArray (segments : list jsstring)
| PathString (s : jsstring)
| PathOther.

(* ------------------------------------------------------------------ *)
(** ** The boundary: options, files, failures *)

(** A value passed for an option: absent, [null], a string, or anything
    else (a number, a boolean, an object, ...). *)
Inductive jsvalue :=
| Undefined
| Null
| Str (s : jsstring)
| Other.

Record Options := mkOptions {
  outputFile : jsvalue;
  language : jsvalue;
  logo : jsvalue;
  divider : jsvalue
}.

(** The second argument of [collectionToHTML]. *)
Inductive OptionsArg :=
| NoOptions
| OptionsObject (o : Options)
| OptionsNull
| OptionsPrimitive.

Inductive exception :=
| Error (message : jsstring)
| TypeError
| SyntaxError (message : jsstring)
| SystemError (path : jsstring).


(** The files, by path. *)
Definition FileSystem := jsstring -> option jsstring.

Definition existsSync (fs : FileSystem) (path : jsstring) : bool :=
  match fs path with
  | Some _ => true
  | None => false
  end.

Definition readFileSync (fs : FileSystem) (path : jsstring)
  : exception + jsstring :=
  match fs path with
  | Some text => inr text
  | None => inl (SystemError path)
  end.

Definition writeFileSync (fs : FileSystem) (path text : jsstring)
  : FileSystem :=
  fun p => if jseqb p path then Some text else fs p.

(** A destructured option with its default. *)
Definition withDefault (v default : jsvalue) : jsvalue :=
  match v with
  | Undefined => default
  | _ => v
  end.

Definition validDividers : list jsstring :=
  [lit "h1"; lit "h2"; lit "h3"; lit "h4"; lit "h5"; lit "h6"].

Definition supportedLanguages : list jsstring := [lit "en"; lit "fr"].

(** [Array.prototype.includes] on an array of strings. *)
Definition arrayIncludes (l : list jsstring) (v : jsvalue) : bool :=
  match v with
  | Str s => existsb (jseqb s) l
  | _ => false
  end.

(** What the command line leaves when it stops. *)
Inductive CliOutcome :=
| Exit1 (stderr : list jsstring)
| Completed (fs : FileSystem) (stdout stderr : list jsstring).

Record CliArgs := mkCliArgs {
  cliOutputFile : jsstring;
  cliLanguage : jsstring;
  cliLogoPath : option jsstring;
  cliDivider : option jsstring
}.

(* ------------------------------------------------------------------ *)
(** ** Sample inputs *)

(** A runtime to evaluate the walker with: a prose renderer that hands the
    markup back, and a JSON parser that accepts the single text [{}]. *)
Definition plainProse (markup : jsstring) : jsstring := markup.

Definition parseEmptyObject (text : jsstring) : option unit :=
  if jseqb text (lit "{}") then Some tt else None.

Definition printEmptyObject (_ : unit) : jsstring := lit "{}".

Definition endpointNamed (n : string) : Node :=
  mkNode (lit n) None None None None.

Definition folderNamed (n : string) (content : list Node) : Node :=
  mkNode (lit n) None (Some content) None None.

(** Two endpoints of one folder under the same name. *)
Definition sampleDuplicates : list Node :=
  [folderNamed "A" [endpointNamed "x"; endpointNamed "x"]].

(** The collection of the end-to-end scenario: one folder [Users] with one
    endpoint [Get User], [GET /users/{{id}}] with a [token] parameter. *)
Definition getUser : Node :=
  mkNode (lit "Get User") None None
    (Some (mkRequest (Some (lit "GET"))
             (Some (UrlObject None (Some [lit "users"; lit "{{id}}"])
                      (Some [mkParam (Some (lit "token")) (Some (lit "abc"))
                               None None])))
             None None None))
    None.

Definition sampleUsers : list Node := [folderNamed "Users" [getUser]].

(** Folders nested eight deep. *)
Definition sampleDeep : list Node :=
  [folderNamed "1" [folderNamed "2" [folderNamed "3" [folderNamed "4"
    [folderNamed "5" [folderNamed "6" [folderNamed "7"
      [folderNamed "8" [endpointNamed "leaf"]]]]]]]]].

(** A folder with a sub-folder and an endpoint of its own. *)
Definition sampleTwoLevels : list Node :=
  [folderNamed "Users" [folderNamed "Admin" [endpointNamed "List"]; getUser]].

(** A parameter with an empty name, a named one, and a token. *)
Definition sampleParams : list Param :=
  [mkParam (Some []) (Some (lit "1")) None None;
   mkParam (Some (lit "page")) (Some (lit "{{page}}")) None None;
   mkParam (Some (lit "Token")) (Some (lit "secret")) None None].

Definition sampleSearch : Node :=
  mkNode (lit "Search") None None
    (Some (mkRequest None (Some (UrlObject None None (Some sampleParams)))
             None None None))
    None.

(** A request at the top level of the collection, with a description. *)
Definition samplePing : Node :=
  mkNode (lit "Ping") (Some (lit "Health check")) None
    (Some (mkRequest (Some (lit "GET")) (Some (UrlString (lit "/ping")))
             None None None))
    (Some [mkResponse None None (Some (lit "pong"))]).




(** Files: the English table and a collection, no German table. *)
Definition sampleTranslationFile (languageName : jsstring) : jsstring :=
  lit "translations/" ++ languageName ++ lit ".json".

Definition sampleFiles : FileSystem :=
  fun path =>
    if jseqb path (lit "translations/en.json") then Some (lit "{}")
    else if jseqb path (lit "collection.json") then Some (lit "{}")
    else None.

Definition sampleCollection : Collection :=
  mkCollection (mkInfo (lit "Sample API") None) sampleUsers.

(** A raw request body that holds markup. *)
Definition sampleMarkupBody : Body :=
  mkBody (Some (lit "raw")) (Some (lit "<b>hi</b>")) None None.

(** A collection whose only entry is a request. *)
Definition sampleRequestAtTop : Collection :=
  mkCollection (mkInfo (lit "Sample API") None) [samplePing].

Definition englishOptions : Options :=
  mkOptions Undefined (Str (lit "en")) Undefined Undefined.

Definition germanOptions : Options :=
  mkOptions Undefined (Str (lit "de")) Undefined Undefined.


Section Renderer.

(** [String.prototype.toLowerCase] *)
Variable toLowerCase : jsstring -> jsstring.
(** [converter.makeHtml] *)
Variable makeHtml : jsstring -> jsstring.
(** The values [JSON.parse] returns; [None] stands for the [SyntaxError] it
    throws, [JSON_stringify v] for [JSON.stringify(v, null, 2)]. *)
Variable json : Type.
Variable JSON_parse : jsstring -> option json.
Variable JSON_stringify : json -> jsstring.

(** *** Identifier slugifier *)

Definition slugify (text : jsstring) : jsstring :=
  let s1 := toLowerCase text in
  let s2 := replaceRuns isSpace 1 [hyphen] s1 in     (* /\s+/g to a hyphen *)
  let s3 := replaceRuns notWordOrHyphen 1 [] s2 in   (* /[^\w\-]+/g removed *)
  let s4 := replaceRuns isHyphen 2 [hyphen] s3 in    (* /\-\-+/g to a hyphen *)
  let s5 := dropWhile isHyphen s4 in                 (* /^-+/ removed *)
  rev (dropWhile isHyphen (rev s5)).                 (* /-+$/ removed *)

Definition getFolderId (folderPath : jsstring + list jsstring) : jsstring :=
  match folderPath with
  | inl s => lit "folder-" ++ slugify s
  | inr segments => lit "folder-" ++ join (lit "-") (List.map slugify segments)
  end.

Definition getEndpointId (parentPath : PathArg) (endpointName : jsstring)
  : jsstring :=
  match parentPath with
  | PathArray segments =>
      lit "endpoint-" ++ join (lit "-") (List.map slugify segments)
        ++ lit "-" ++ slugify endpointName
  | PathString s =>
      lit "endpoint-" ++ slugify s ++ lit "-" ++ slugify endpointName
  | PathOther => lit "endpoint-" ++ slugify endpointName
  end.

Section Walker.

Variable translations : Translations.

(** *** Table of contents *)

Fixpoint generateTocItem (item0 : Node) (parentPath : list jsstring) : html :=
  match item0 with
  | mkNode itemName _ subItems _ _ =>
      let itemPath := parentPath ++ [itemName] in
      let itemId := getFolderId (inl (join (lit "-") itemPath)) in
      Elem (T "li") []
        (Elem (T "a") [("href"%string, lit "#" ++ itemId)] [Text itemName]
         :: match subItems with
            | Some ((_ :: _) as subs) =>
                [Elem (T "ul") []
                   (List.map
                      (fun subItem =>
                         if isFolder subItem
                         then generateTocItem subItem itemPath
                         else
                           let endpointId :=
                             getEndpointId (PathArray itemPath) (name subItem)
                           in
                           Elem (T "li") []
                             [Elem (T "a")
                                [("href"%string, lit "#" ++ endpointId)]
                                [Text (name subItem)]])
                      subs)]
            | _ => []
            end)
  end.

Definition generateTableOfContents (folders0 : list Node) : list html :=
  List.map (fun folder => generateTocItem folder []) folders0.

(** *** Endpoint renderer

    [generateEndpointContent] is one function in the source; the blocks it
    appends one after the other are named here after the comments that head
    them. *)

Definition tableHead (labels : list jsstring) : html :=
  Elem (T "thead") []
    [Elem (T "tr") [] (List.map (fun l => Elem (T "th") [] [Text l]) labels)].

(** The filter on the query parameters. *)
Definition keepQueryParam (param : Param) : bool :=
  match key param with
  | Some ((_ :: _) as k) =>
      negb (jseqb (toLowerCase k) (lit "token"))
      && negb (jseqb (toLowerCase k) (lit "key"))
  | _ => false
  end.

Definition queryParamRow (param : Param) : html :=
  Elem (T "tr") []
    [Elem (T "td") [] [Text (interpolate (key param))];
     Elem (T "td") [] [Text (cleanText (orDefault (value param) []))];
     Elem (T "td") []
       [Text (escapeHtml (orDefault (paramDescription param) []))]].

Definition queryParametersSection (queryParams : list Param) : list html :=
  let filteredQueryParams := List.filter keepQueryParam queryParams in
  match filteredQueryParams with
  | [] => []
  | _ :: _ =>
      [Elem (T "div") [("class"%string, lit "params-section")]
         [Elem (H 4) [] [Text (queryParameters translations)];
          Elem (T "table") []
            [tableHead [parameterLabel translations;
                        valueLabel translations;
                        descriptionLabel translations];
             Elem (T "tbody") []
               (List.map queryParamRow filteredQueryParams)]]]
  end.

Definition headerRow (header0 : Param) : html :=
  Elem (T "tr") []
    [Elem (T "td") [] [Text (interpolate (key header0))];
     Elem (T "td") [] [Text (cleanText (orDefault (value header0) []))]].

Definition headersSection (headers : list Param) : list html :=
  match headers with
  | [] => []
  | _ :: _ =>
      [Elem (T "div") [("class"%string, lit "params-section")]
         [Elem (H 5) [] [Text (headersLabel translations)];
          Elem (T "table") []
            [tableHead [nameLabel translations; valueLabel translations];
             Elem (T "tbody") [] (List.map headerRow headers)]]]
  end.

Definition formDataRow (param : Param) : html :=
  Elem (T "tr") []
    [Elem (T "td") [] [Text (interpolate (key param))];
     Elem (T "td") [] [Text (cleanText (orDefault (value param) []))];
     Elem (T "td") [] [Text (orDefault (paramType param) (lit "text"))]].

Definition requestBodySection (body0 : option Body) : list html :=
  match body0 with
  | None => []
  | Some b =>
      if optionIs (mode b) (lit "raw") && truthy (bodyRaw b)
      then
        let rawBody := cleanText (orDefault (bodyRaw b) []) in
        let language := orDefault (rawLanguage b) (lit "text") in
        [Elem (T "div") [("class"%string, lit "params-section")]
           [Elem (H 4) [] [Text (requestBody translations)];
            Elem (T "pre") []
              [Elem (T "code")
                 [("class"%string, lit "language-" ++ language)]
                 [Text rawBody]]]]
      else
        match formdata b with
        | Some entries =>
            if optionIs (mode b) (lit "formdata")
            then
              [Elem (T "div") [("class"%string, lit "params-section")]
                 [Elem (H 4) [] [Text (formData translations)];
                  Elem (T "table") []
                    [tableHead [keyLabel translations;
                                valueLabel translations;
                                typeLabel translations];
                     Elem (T "tbody") [] (List.map formDataRow entries)]]]
            else []
        | None => []
        end
  end.

(** The content type and the language of a response example: the header
    lookup, then the preview-language override. *)
Definition contentTypeHeader (response0 : ResponseExample) : option Param :=
  match responseHeader response0 with
  | Some hs =>
      List.find
        (fun h =>
           match key h with
           | Some ((_ :: _) as k) => jseqb (toLowerCase k) (lit "content-type")
           | _ => false
           end) hs
  | None => None
  end.

Definition responseContentType (response0 : ResponseExample) : jsstring :=
  match contentTypeHeader response0 with
  | Some h =>
      match value h with
      | Some ((_ :: _) as v) => toLowerCase v
      | _ => lit "text/plain"
      end
  | None => lit "text/plain"
  end.

Definition languageOfContentType (contentType : jsstring) : jsstring :=
  if includes (lit "json") contentType then lit "json"
  else if includes (lit "xml") contentType then lit "xml"
  else if includes (lit "html") contentType then lit "html"
  else if includes (lit "javascript") contentType then lit "javascript"
  else lit "text".

Definition responseLanguage (response0 : ResponseExample) : jsstring :=
  let language :=
    match contentTypeHeader response0 with
    | Some h =>
        match value h with
        | Some ((_ :: _) as v) => languageOfContentType (toLowerCase v)
        | _ => lit "text"
        end
    | None => lit "text"
    end in
  orDefault (previewLanguage response0) language.

(** The body as it is shown: pretty-printed when the language is [json] and
    the text parses, the text itself otherwise ([catch] keeps it). *)
Definition formatBody (language body0 : jsstring) : jsstring :=
  if jseqb language (lit "json") then
    match JSON_parse body0 with
    | Some parsed => JSON_stringify parsed
    | None => body0
    end
  else body0.

Definition responseBodyBlock (language body0 : jsstring) : list html :=
  let formattedBody := formatBody language body0 in
  let isLong := (10 <? lineCount formattedBody)%Z in
  Elem (T "div")
    [("class"%string,
      lit "response-body" ++ (if isLong then lit " collapsed" else []))]
    [Elem (T "pre") []
       [Elem (T "code") [("class"%string, lit "language-" ++ language)]
          [Text formattedBody]]]
  :: (if isLong
      then [Elem (T "button") [("class"%string, lit "expand-button")]
              [Text (showAll translations)]]
      else []).

Definition renderResponse (response0 : ResponseExample) : html :=
  let contentType := responseContentType response0 in
  let language := responseLanguage response0 in
  Elem (T "div") [("class"%string, lit "response-example")]
    ((if jseqb contentType (lit "text/plain") then []
      else [Elem (T "p") []
              [Elem (T "strong") []
                 [Text (contentTypeLabel translations ++ lit ":")];
               Text (lit " " ++ contentType)]])
     ++ match responseBody response0 with
        | Some ((_ :: _) as b) => responseBodyBlock language b
        | _ => []
        end).

Definition responseExamplesSection (responses : option (list ResponseExample))
  : list html :=
  match responses with
  | Some ((_ :: _) as rs) =>
      [Elem (T "div") [("class"%string, lit "params-section")]
         (Elem (H 4) [] [Text (responseExample translations)]
          :: List.map renderResponse rs)]
  | _ => []
  end.

Definition formatUrl (request0 : Request) : jsstring :=
  match url request0 with
  | Some (UrlString s) => cleanText s
  | Some (UrlObject (Some ((_ :: _) as r)) _ _) => cleanText r
  | _ => []
  end.

Definition formatUrlPath (request0 : Request) : jsstring :=
  match url request0 with
  | Some (UrlObject _ (Some segments) _) =>
      lit "/" ++ join (lit "/") (List.map cleanText segments)
  | _ => []
  end.

Definition queryParamsOf (request0 : Request) : list Param :=
  match url request0 with
  | Some (UrlObject _ _ (Some q)) => q
  | _ => []
  end.

Definition headersOf (request0 : Request) : list Param :=
  match header request0 with
  | Some hs => hs
  | None => []
  end.

Definition generateEndpointContent (parentPath : list jsstring)
    (endpoint : Node) : html :=
  let endpointId := getEndpointId (PathArray parentPath) (name endpoint) in
  match request endpoint with
  | None =>
      Elem (T "div")
        [("class"%string, lit "endpoint"); ("id"%string, endpointId)]
        [Elem (H 4) [] [Text (name endpoint)];
         Elem (T "p") [] [Text (noRequestInfoAvailable translations)]]
  | Some request0 =>
      let method0 := orDefault (method request0) (lit "GET") in
      let methodClass := toLowerCase method0 in
      let url0 := formatUrl request0 in
      let urlPath := formatUrlPath request0 in
      let endpointDescription :=
        orElse (description endpoint) (requestDescription request0) in
      Elem (T "div")
        [("class"%string, lit "endpoint"); ("id"%string, endpointId)]
        ([Elem (T "div") [("class"%string, lit "endpoint-header")]
            [Elem (T "span")
               [("class"%string, lit "http-method " ++ methodClass)]
               [Text method0];
             Elem (T "span") [("class"%string, lit "url-path")]
               [Text (match urlPath with [] => url0 | _ :: _ => urlPath end)]];
          Elem (H 3) [] [Text (name endpoint)]]
         ++ (if truthy endpointDescription
             then [Elem (T "div")
                     [("class"%string, lit "endpoint-description")]
                     [Text (makeHtml (interpolate endpointDescription))]]
             else [])
         ++ [Elem (T "div") [("class"%string, lit "endpoint-details")]
               (queryParametersSection (queryParamsOf request0)
                ++ headersSection (headersOf request0)
                ++ requestBodySection (body request0)
                ++ responseExamplesSection (response endpoint))])
  end.

(** *** Tree walker *)

Fixpoint generateFolderContent (item0 : Node) (parentPath : list jsstring)
    (headerLevel : Z) : html :=
  match item0 with
  | mkNode itemName itemDescription subItems _ _ =>
      let itemPath := parentPath ++ [itemName] in
      let itemId := getFolderId (inl (join (lit "-") itemPath)) in
      Elem (T "section") [("id"%string, itemId)]
        (Elem (H headerLevel) [] [Text itemName]
         :: (if truthy itemDescription
             then [Elem (T "div")
                     [("class"%string, lit "folder-description")]
                     [Text (makeHtml (interpolate itemDescription))]]
             else [])
         ++ match subItems with
            | Some ((_ :: _) as subs) =>
                List.map
                  (fun subItem =>
                     if isFolder subItem
                     then generateFolderContent subItem itemPath
                            (Z.min (headerLevel + 1) 6)
                     else generateEndpointContent itemPath subItem)
                  subs
            | _ => []
            end)
  end.

Definition generateFoldersContent (folders0 : list Node) : list html :=
  List.map (fun folder => generateFolderContent folder [] 2) folders0.

End Walker.

(** *** Document assembler *)

(** The clock, as the [DD/MM/YYYY] text the assembler makes of it. *)
Variable formattedDate : jsstring.
(** The static style sheet, before and after the divider rule, and the
    client script, which quotes the labels. *)
Variable styleSheetHead styleSheetTail : jsstring.
Variable clientScript : Translations -> jsstring.

Definition generateHtmlDocumentation (collection : Collection)
    (translations : Translations) (logo0 divider0 : option jsstring)
  : list html :=
  let hasLogo :=
    match logo0 with
    | Some l => negb (jseqb (trim l) [])
    | None => false
    end in
  let logoContent := if hasLogo then logo0 else None in
  [Text (lit "<!DOCTYPE html>");
   Elem (T "html") [("lang"%string, lit "en")]
     [Elem (T "head") []
        [Elem (T "meta") [("charset"%string, lit "UTF-8")] [];
         Elem (T "meta")
           [("name"%string, lit "viewport");
            ("content"%string, lit "width=device-width, initial-scale=1.0")]
           [];
         Elem (T "title") []
           [Text (infoName (info collection) ++ lit " - API Documentation")];
         Elem (T "style") []
           [Text (styleSheetHead
                  ++ (if truthy divider0
                      then interpolate divider0
                           ++ lit " { border-bottom: 1px solid var(--border-color); }"
                      else lit "null")
                  ++ styleSheetTail)]];
      Elem (T "body") []
        [Elem (T "header") []
           [Elem (T "div") [("class"%string, lit "header-content")]
              (Elem (T "div") [("class"%string, lit "header-text")]
                 [Elem (H 1) [] [Text (infoName (info collection))];
                  Elem (T "div") [("class"%string, lit "generation-date")]
                    [Text (documentationGenerated translations ++ lit " "
                           ++ formattedDate)]]
               :: (if hasLogo && truthy logoContent
                   then [Elem (T "div") [("class"%string, lit "header-logo")]
                           [Elem (T "div") [("class"%string, lit "logo")]
                              [Text (interpolate logoContent)]]]
                   else []))];
         Elem (T "div") [("class"%string, lit "container")]
           [Elem (T "div") [("class"%string, lit "sidebar")]
              [Elem (T "div") [("class"%string, lit "toc")]
                 [Elem (H 2) [] [Text (tableOfContents translations)];
                  Elem (T "ul") []
                    (Elem (T "li") []
                       [Elem (T "a") [("href"%string, lit "#overview")]
                          [Text (overview translations)]]
                     :: generateTableOfContents (folders collection))]];
            Elem (T "div") [("class"%string, lit "content")]
              (Elem (T "section") [("id"%string, lit "overview")]
                 [Text (makeHtml
                          (orDefault (infoDescription (info collection))
                             (noDescriptionAvailable translations)))]
               :: generateFoldersContent translations (folders collection))];
         Elem (T "script") [] [Text (clientScript translations)]]]].

(** *** The module's entry point *)

(** [join(__dirname, "translations", language + ".json")] *)
Variable translationFile : jsstring -> jsstring.
(** [JSON.parse] of a translation file and of a collection file, read as the
    records above; [inl] carries the message of the [SyntaxError]. *)
Variable parseTranslations : jsstring -> jsstring + Translations.
Variable parseCollection : jsstring -> jsstring + Collection.
(** The message the runtime gives the errors it raises itself. *)
Variable runtimeMessage : exception -> jsstring.

Definition errorMessage (e : exception) : jsstring :=
  match e with
  | Error m => m
  | _ => runtimeMessage e
  end.

Definition jsonParseTranslations (text : jsstring)
  : exception + Translations :=
  match parseTranslations text with
  | inl m => inl (SyntaxError m)
  | inr t => inr t
  end.

(** [loadTranslations]: the warnings it prints and what it returns or
    throws. *)
Definition loadTranslations (fs : FileSystem) (language0 : jsstring)
  : list jsstring * (exception + Translations) :=
  let translationPath := translationFile language0 in
  if negb (existsSync fs translationPath) then
    let fallbackPath := translationFile (lit "en") in
    ([lit "Translation file for language '" ++ language0
        ++ lit "' not found. Falling back to English."],
     match readFileSync fs fallbackPath with
     | inl e => inl e
     | inr text => jsonParseTranslations text
     end)
  else
    ([],
     match readFileSync fs translationPath with
     | inl e => inl e
     | inr text => jsonParseTranslations text
     end).

Definition stringOption (v : jsvalue) : option jsstring :=
  match v with
  | Str s => Some s
  | _ => None
  end.

Definition isString (v : jsvalue) : bool :=
  match v with
  | Str _ => true
  | _ => false
  end.

Definition isNull (v : jsvalue) : bool :=
  match v with
  | Null => true
  | _ => false
  end.

Definition stringOf (v : jsvalue) : jsstring :=
  match v with
  | Str s => s
  | _ => []
  end.

Definition isPrimitive (options : OptionsArg) : bool :=
  match options with
  | OptionsPrimitive => true
  | _ => false
  end.

(** [collectionToHTML]: the warnings printed, and either the exception
    thrown or the files as they are left together with the path returned.
    Destructuring [null] is a [TypeError]; a primitive has none of the
    properties, so every option takes its default. *)
Definition collectionToHTML (fs : FileSystem) (inputFile : jsvalue)
    (options : OptionsArg)
  : list jsstring * (exception + FileSystem * jsstring) :=
  match options with
  | OptionsNull => ([], inl TypeError)
  | _ =>
    let o :=
      match options with
      | OptionsObject o => o
      | _ => mkOptions Undefined Undefined Undefined Undefined
      end in
    let outputFile0 := withDefault (outputFile o) (Str (lit "api-doc.html")) in
    let language0 := withDefault (language o) (Str (lit "en")) in
    let logo0 := withDefault (logo o) Null in
    let divider0 := withDefault (divider o) Null in
    if negb (isString inputFile) then
      ([], inl (Error (lit "Input file must be a string.")))
    else if isPrimitive options then
      ([], inl (Error (lit "Options must be an object.")))
    else if negb (isString outputFile0) then
      ([], inl (Error (lit "Output file must be a string.")))
    else if negb (isString language0) then
      ([], inl (Error (lit "Language must be a string.")))
    else if negb (isNull logo0) && negb (isString logo0) then
      ([], inl (Error (lit "Logo SVG must be a string or null.")))
    else if negb (isNull divider0)
            && negb (arrayIncludes validDividers divider0) then
      ([], inl (Error (lit
         "Divider must be one of: h1, h2, h3, h4, h5, h6, or null.")))
    else
      let inputPath := stringOf inputFile in
      let (warnings, loaded) := loadTranslations fs (stringOf language0) in
      match loaded with
      | inl e => (warnings, inl e)
      | inr translations =>
          if negb (existsSync fs inputPath) then
            (warnings,
             inl (Error (lit "Input file '" ++ inputPath
                         ++ lit "' does not exist.")))
          else
            let parsed :=
              match readFileSync fs inputPath with
              | inl e => inl (errorMessage e)
              | inr text => parseCollection text
              end in
            match parsed with
            | inl m =>
                (warnings,
                 inl (Error (lit "Input file '" ++ inputPath
                             ++ lit "' is not valid JSON: " ++ m)))
            | inr postmanCollection =>
                let htmlContent :=
                  generateHtmlDocumentation postmanCollection translations
                    (stringOption logo0) (stringOption divider0) in
                (warnings,
                 inr (writeFileSync fs (stringOf outputFile0)
                        (flat_map render htmlContent),
                      stringOf outputFile0))
            end
      end
  end.

(** *** The command line *)

Definition equalsSign : N := 61.

(** [arg.split("=")[1]] *)
Definition argumentValue (arg : jsstring) : jsstring :=
  nth 1 (split equalsSign arg) [].

(** The loop over [argv[3..]]; [inl arg] is the argument it does not know. *)
Fixpoint parseArguments (args : list jsstring) (acc : CliArgs)
  : jsstring + CliArgs :=
  match args with
  | [] => inr acc
  | arg :: rest =>
      if startsWith (lit "--lang=") arg then
        parseArguments rest
          (mkCliArgs (cliOutputFile acc) (argumentValue arg)
             (cliLogoPath acc) (cliDivider acc))
      else if startsWith (lit "--output=") arg then
        parseArguments rest
          (mkCliArgs (argumentValue arg) (cliLanguage acc)
             (cliLogoPath acc) (cliDivider acc))
      else if startsWith (lit "--logo=") arg then
        parseArguments rest
          (mkCliArgs (cliOutputFile acc) (cliLanguage acc)
             (Some (argumentValue arg)) (cliDivider acc))
      else if startsWith (lit "--divider=") arg then
        parseArguments rest
          (mkCliArgs (cliOutputFile acc) (cliLanguage acc)
             (cliLogoPath acc) (Some (argumentValue arg)))
      else inl arg
  end.

Definition usage : list jsstring :=
  [lit "Usage: node cli.js <input-file.json> [--output=output-file.html] [--lang=language] [--logo=logo.svg] [--divider=h1|h2|h3|h4|h5|h6]";
   lit "Options:";
   lit "  --output=file.html    Output HTML file (default: api-doc.html)";
   lit "  --lang=language       Language for documentation (default: en)";
   lit "  --logo=logo.svg       SVG logo file to embed (optional)";
   lit "  --divider=h1-h6       Heading level to add border-bottom (optional)";
   lit "Available languages: en (English), fr (French)"].

Definition nullable (o : option jsstring) : jsvalue :=
  match o with
  | Some s => Str s
  | None => Null
  end.

(** What the options are before the arguments are read. *)
Definition initialCliArgs : CliArgs :=
  mkCliArgs (lit "api-doc.html") (lit "en") None None.

(** [cli.js], run on [argv] (the interpreter and the script come first). *)
Definition cli (fs : FileSystem) (argv : list jsstring) : CliOutcome :=
  match argv with
  | _ :: _ :: inputFile :: rest =>
      match parseArguments rest initialCliArgs with
      | inl arg =>
          Exit1 [lit "Unknown argument: " ++ arg;
                 lit "Use --help for usage information"]
      | inr args =>
          if negb (existsb (jseqb (cliLanguage args)) supportedLanguages) then
            Exit1 [lit "Unsupported language: " ++ cliLanguage args;
                   lit "Available languages: "
                     ++ join (lit ", ") supportedLanguages]
          else if truthy (cliDivider args)
                  && negb (arrayIncludes validDividers
                             (nullable (cliDivider args))) then
            Exit1 [lit "Invalid divider: " ++ interpolate (cliDivider args);
                   lit "Valid dividers: " ++ join (lit ", ") validDividers]
          else
            let logoRead :=
              if truthy (cliLogoPath args)
              then match readFileSync fs (interpolate (cliLogoPath args)) with
                   | inl e => inl e
                   | inr text => inr (Some text)
                   end
              else inr None in
            match logoRead with
            | inl e =>
                Exit1 [lit "Error: Could not read logo file '"
                         ++ interpolate (cliLogoPath args) ++ lit "': "
                         ++ errorMessage e]
            | inr logo0 =>
                let found :=
                  match logo0 with
                  | Some _ =>
                      [lit "Found logo file: "
                         ++ interpolate (cliLogoPath args)
                         ++ lit ", embedding it in the HTML..."]
                  | None => []
                  end in
                match collectionToHTML fs (Str inputFile)
                        (OptionsObject
                           (mkOptions (Str (cliOutputFile args))
                              (Str (cliLanguage args)) (nullable logo0)
                              (nullable (cliDivider args)))) with
                | (warnings, inl e) =>
                    Exit1 (warnings ++ [lit "Error: " ++ errorMessage e])
                | (warnings, inr (fs', _)) =>
                    Completed fs'
                      (found
                       ++ [lit "HTML generated successfully: "
                             ++ cliOutputFile args ++ lit " (language: "
                             ++ cliLanguage args ++ lit ")"])
                      warnings
                end
            end
      end
  | _ => Exit1 usage
  end.

(** *** The single-file script

    [index.js] run as a script: its checks on the arguments, then the page
    of [generateHtmlDocumentation], written to the output file.  The style
    sheet and the client script of that page are static text. *)

Variable legacyStyleSheet legacyScript : jsstring.




(** *** The first generation of the table of contents

    Before the walker recursed, the table of contents was written out for two
    levels: folders, their sub-folders, and the endpoints of both. *)

Definition hasNestedFolders (folder : Node) : bool :=
  match item folder with
  | Some ((_ :: _) as l) => existsb isFolder l
  | _ => false
  end.

Definition getFolderIdV1 (folderName : jsstring) : jsstring :=
  lit "folder-" ++ slugify folderName.

Definition getEndpointIdV1 (folderName : jsstring)
    (subFolderName : option jsstring) (endpointName : jsstring) : jsstring :=
  match subFolderName with
  | Some ((_ :: _) as sub) =>
      lit "endpoint-" ++ slugify folderName ++ lit "-" ++ slugify sub
        ++ lit "-" ++ slugify endpointName
  | _ => lit "endpoint-" ++ slugify folderName ++ lit "-"
           ++ slugify endpointName
  end.

Definition tocLink (id text : jsstring) : html :=
  Elem (T "a") [("href"%string, lit "#" ++ id)] [Text text].

Definition generateTableOfContentsV1 (folders0 : list Node) : list html :=
  List.map
    (fun folder =>
       let folderId := getFolderIdV1 (name folder) in
       Elem (T "li") []
         (tocLink folderId (name folder)
          :: match item folder with
             | Some ((_ :: _) as subs) =>
                 [Elem (T "ul") []
                    (if hasNestedFolders folder then
                       List.map
                         (fun subFolder =>
                            if isFolder subFolder then
                              let subFolderId :=
                                getFolderIdV1
                                  (name folder ++ lit "-" ++ name subFolder) in
                              Elem (T "li") []
                                (tocLink subFolderId (name subFolder)
                                 :: match item subFolder with
                                    | Some ((_ :: _) as endpoints) =>
                                        [Elem (T "ul") []
                                           (List.map
                                              (fun endpoint =>
                                                 Elem (T "li") []
                                                   [tocLink
                                                      (getEndpointIdV1
                                                         (name folder)
                                                         (Some (name subFolder))
                                                         (name endpoint))
                                                      (name endpoint)])
                                              (List.filter
                                                 (fun endpoint =>
                                                    negb (isFolder endpoint))
                                                 endpoints))]
                                    | _ => []
                                    end)
                            else
                              Elem (T "li") []
                                [tocLink
                                   (getEndpointIdV1 (name folder) None
                                      (name subFolder))
                                   (name subFolder)])
                         subs
                     else
                       List.map
                         (fun endpoint =>
                            Elem (T "li") []
                              [tocLink
                                 (getEndpointIdV1 (name folder) None
                                    (name endpoint))
                                 (name endpoint)])
                         subs)]
             | _ => []
             end))
    folders0.

(** *** The first generation of the content

    The content of the same generation: sections for folders and
    sub-folders, endpoints below them, English labels in the text.  A loop
    over the [item] of a folder that has none throws; the script catches it,
    prints the exception as the runtime shows it and stops. *)

Variable firstStyleSheet : jsstring.
Variable inspectError : exception -> jsstring.

(** This generation escaped the five characters of markup only. *)
Definition escapeHtmlV1 (text : jsstring) : jsstring :=
  replaceLiteral (lit "'") (lit "&#039;")
    (replaceLiteral [doubleQuote] (lit "&quot;")
      (replaceLiteral (lit ">") (lit "&gt;")
        (replaceLiteral (lit "<") (lit "&lt;")
          (replaceLiteral (lit "&") (lit "&amp;") text)))).



Definition requestBodySectionV1 (body0 : option Body) : list html :=
  match body0 with
  | None => []
  | Some b =>
      if optionIs (mode b) (lit "raw") && truthy (bodyRaw b)
      then
        let rawBody := orDefault (bodyRaw b) [] in
        let language := orDefault (rawLanguage b) (lit "text") in
        [Elem (T "div") [("class"%string, lit "params-section")]
           [Elem (H 5) [] [Text (lit "Request Body")];
            Elem (T "pre") []
              [Elem (T "code")
                 [("class"%string, lit "language-" ++ language)]
                 [Text (escapeHtmlV1 rawBody)]]]]
      else
        match formdata b with
        | Some entries =>
            if optionIs (mode b) (lit "formdata")
            then
              [Elem (T "div") [("class"%string, lit "params-section")]
                 [Elem (H 5) [] [Text (lit "Form Data")];
                  Elem (T "table") []
                    [tableHead [lit "Key"; lit "Value"; lit "Type"];
                     Elem (T "tbody") []
                       (List.map
                          (fun param =>
                             Elem (T "tr") []
                               [Elem (T "td") []
                                  [Text (interpolate (key param))];
                                Elem (T "td") []
                                  [Text (orDefault (value param) [])];
                                Elem (T "td") []
                                  [Text (orDefault (paramType param)
                                           (lit "text"))]])
                          entries)]]]
            else []
        | None => []
        end
  end.






(** *** The command line before the divider option *)

Fixpoint parseArgumentsV1 (args : list jsstring) (acc : CliArgs)
  : jsstring + CliArgs :=
  match args with
  | [] => inr acc
  | arg :: rest =>
      if startsWith (lit "--lang=") arg then
        parseArgumentsV1 rest
          (mkCliArgs (cliOutputFile acc) (argumentValue arg)
             (cliLogoPath acc) (cliDivider acc))
      else if startsWith (lit "--output=") arg then
        parseArgumentsV1 rest
          (mkCliArgs (argumentValue arg) (cliLanguage acc)
             (cliLogoPath acc) (cliDivider acc))
      else if startsWith (lit "--logo=") arg then
        parseArgumentsV1 rest
          (mkCliArgs (cliOutputFile acc) (cliLanguage acc)
             (Some (argumentValue arg)) (cliDivider acc))
      else inl arg
  end.

Definition usageV1 : list jsstring :=
  [lit "Usage: node cli.js <input-file.json> [--output=output-file.html] [--lang=language] [--logo=logo.svg]";
   lit "Options:";
   lit "  --output=file.html    Output HTML file (default: api-doc.html)";
   lit "  --lang=language       Language for documentation (default: en)";
   lit "  --logo=logo.svg       SVG logo file to embed (optional)";
   lit "Available languages: en (English), fr (French)"].

(** The first [cli.js]: no divider is read, checked or passed on. *)
Definition cliV1 (fs : FileSystem) (argv : list jsstring) : CliOutcome :=
  match argv with
  | _ :: _ :: inputFile :: rest =>
      match parseArgumentsV1 rest initialCliArgs with
      | inl arg =>
          Exit1 [lit "Unknown argument: " ++ arg;
                 lit "Use --help for usage information"]
      | inr args =>
          if negb (existsb (jseqb (cliLanguage args)) supportedLanguages) then
            Exit1 [lit "Unsupported language: " ++ cliLanguage args;
                   lit "Available languages: "
                     ++ join (lit ", ") supportedLanguages]
          else
            let logoRead :=
              if truthy (cliLogoPath args)
              then match readFileSync fs (interpolate (cliLogoPath args)) with
                   | inl e => inl e
                   | inr text => inr (Some text)
                   end
              else inr None in
            match logoRead with
            | inl e =>
                Exit1 [lit "Error: Could not read logo file '"
                         ++ interpolate (cliLogoPath args) ++ lit "': "
                         ++ errorMessage e]
            | inr logo0 =>
                let found :=
                  match logo0 with
                  | Some _ =>
                      [lit "Found logo file: "
                         ++ interpolate (cliLogoPath args)
                         ++ lit ", embedding it in the HTML..."]
                  | None => []
                  end in
                match collectionToHTML fs (Str inputFile)
                        (OptionsObject
                           (mkOptions (Str (cliOutputFile args))
                              (Str (cliLanguage args)) (nullable logo0)
                              Undefined)) with
                | (warnings, inl e) =>
                    Exit1 (warnings ++ [lit "Error: " ++ errorMessage e])
                | (warnings, inr (fs', _)) =>
                    Completed fs'
                      (found
                       ++ [lit "HTML generated successfully: "
                             ++ cliOutputFile args ++ lit " (language: "
                             ++ cliLanguage args ++ lit ")"])
                      warnings
                end
            end
      end
  | _ => Exit1 usageV1
  end.

(* ------------------------------------------------------------------ *)
(** ** What the properties are stated with *)

Definition startsHyphen (s : jsstring) : bool :=
  match s with
  | c :: _ => isHyphen c
  | [] => false
  end.

(** No two hyphens side by side. *)
Fixpoint noDouble (s : jsstring) : bool :=
  match s with
  | c :: r => negb (isHyphen c && startsHyphen r) && noDouble r
  | [] => true
  end.

Definition jsstring_eq_dec : forall a b : jsstring, {a = b} + {a <> b} :=
  list_eq_dec N.eq_dec.

(** The link target of an identifier. *)
Definition anchorOf (id : jsstring) : jsstring := lit "#" ++ id.

(** The link targets of a table of contents and the identifiers of a
    content fragment. *)
Definition linkTargets (toc : list html) : list jsstring :=
  flat_map (attributes "href") toc.

Definition sectionIds (content : list html) : list jsstring :=
  flat_map (attributes "id") content.

(** Every link target has exactly one section, every section exactly one
    link. *)
Definition oneToOne (targets ids : list jsstring) : Prop :=
  (forall t, In t targets ->
     exists id, t = anchorOf id /\ count_occ jsstring_eq_dec ids id = 1%nat)
  /\ (forall id, In id ids ->
        count_occ jsstring_eq_dec targets (anchorOf id) = 1%nat).

Definition elementContent (h : html) : list html :=
  match h with
  | Elem _ _ cs => cs
  | Text _ => []
  end.

(** The rows of the table bodies of a fragment. *)
Definition tableRows (h : html) : list html :=
  flat_map elementContent (byTag "tbody" h).

(** [key] equals [word], letter case aside. *)
Definition caseInsensitiveIs (k : option jsstring) (word : jsstring) : bool :=
  match k with
  | Some s => jseqb (toLowerCase s) word
  | None => false
  end.

(** The parameters named [token] or [key]. *)
Definition isAuthParam (param : Param) : bool :=
  caseInsensitiveIs (key param) (lit "token")
  || caseInsensitiveIs (key param) (lit "key").

(** The parameters left out of the table: those without a name, and those
    named [token] or [key]. *)
Definition isExcluded (param : Param) : bool :=
  negb (truthy (key param)) || isAuthParam param.

(** A section that holds a heading and nothing else. *)
Definition headingOnly (h : html) : Prop :=
  match h with
  | Elem (T "section") _ [Elem (H _) _ _] => True
  | _ => False
  end.

(** What a folder's description is rendered as. *)
Definition descriptionBlock (d : option jsstring) : list html :=
  if truthy d
  then [Elem (T "div") [("class"%string, lit "folder-description")]
          [Text (makeHtml (interpolate d))]]
  else [].

(** A text made of literal pieces and placeholders. *)
Inductive segment :=
| Literal (text : jsstring)
| Placeholder (variable : jsstring).

Definition placeholder (variable : jsstring) : jsstring :=
  lit "{{" ++ variable ++ lit "}}".

(** The text as written, and the text with each placeholder replaced by its
    variable name. *)
Fixpoint templateText (segments : list segment) : jsstring :=
  match segments with
  | [] => []
  | Literal text :: rest => text ++ templateText rest
  | Placeholder variable :: rest => placeholder variable ++ templateText rest
  end.

Fixpoint templateValue (segments : list segment) : jsstring :=
  match segments with
  | [] => []
  | Literal text :: rest => text ++ templateValue rest
  | Placeholder variable :: rest => variable ++ templateValue rest
  end.

Definition isBrace (c : N) : bool :=
  (c =? openBrace)%N || (c =? closeBrace)%N.

Definition braceFree (s : jsstring) : Prop :=
  Forall (fun c => isBrace c = false) s.

(** Literal pieces without braces, variable names without braces and not
    empty. *)
Definition wellFormed (segments : list segment) : Prop :=
  Forall (fun sg =>
            match sg with
            | Literal text => braceFree text
            | Placeholder variable => variable <> [] /\ braceFree variable
            end) segments.

Definition notClose (c : N) : bool := negb (c =? closeBrace)%N.

(** A variable name as the pattern takes it: not empty, no closing brace. *)
Definition isVariableName (x : jsstring) : Prop :=
  x <> [] /\ Forall (fun c => c <> closeBrace) x.

Definition hasPlaceholder (text : jsstring) : Prop :=
  exists before x after,
    isVariableName x /\ text = before ++ placeholder x ++ after.

(** The checks of [collectionToHTML] on its options, one by one. *)
Definition outputFileAccepted (o : Options) : bool :=
  isString (withDefault (outputFile o) (Str (lit "api-doc.html"))).

Definition languageAccepted (o : Options) : bool :=
  isString (withDefault (language o) (Str (lit "en"))).

Definition logoAccepted (o : Options) : bool :=
  isNull (withDefault (logo o) Null) || isString (withDefault (logo o) Null).

Definition dividerAccepted (o : Options) : bool :=
  isNull (withDefault (divider o) Null)
  || arrayIncludes validDividers (withDefault (divider o) Null).



Definition ampersand : N := 38.
Definition apostrophe : N := 39.
Definition lessThan : N := 60.
Definition greaterThan : N := 62.
Definition backslash : N := 92.

(** The units [escapeHtml] looks for. *)
Definition isMarkup (c : N) : bool :=
  (c =? ampersand)%N || (c =? lessThan)%N || (c =? greaterThan)%N
  || (c =? doubleQuote)%N || (c =? apostrophe)%N || (c =? lineFeed)%N
  || (c =? backslash)%N.

(** The text of the links of a fragment, in document order. *)
Definition linkTexts (h : html) : list jsstring :=
  List.map textContent (byTag "a" h).

(** A collection of folders, sub-folders with a name, and endpoints: nothing
    nested deeper than a sub-folder. *)
Definition twoLevels (folders0 : list Node) : Prop :=
  forall folder subFolder,
    In folder folders0 -> In subFolder (children folder) ->
    isFolder subFolder = true ->
    name subFolder <> []
    /\ forall endpoint, In endpoint (children subFolder) ->
                        isFolder endpoint = false.

(** An identifier that can stand in a URL fragment. *)
Definition safeIdentifier (id : jsstring) : Prop :=
  Forall (fun c => isSlugChar c = true) id
  /\ (startsWith (lit "folder-") id = true
      \/ startsWith (lit "endpoint-") id = true).


(** The four options of the command line. *)
Definition isKnownArgument (arg : jsstring) : bool :=
  startsWith (lit "--lang=") arg || startsWith (lit "--output=") arg
  || startsWith (lit "--logo=") arg || startsWith (lit "--divider=") arg.

#[local] Set Default Proof Using "Type".

Arguments lit : simpl never.
Arguments slugify : simpl never.
Arguments getFolderId : simpl never.
Arguments getEndpointId : simpl never.

(* ------------------------------------------------------------------ *)
(** ** Strings: basic facts *)

Lemma jseqb_eq (a b : jsstring) : jseqb a b = true <-> a = b.
Proof.
  revert b; induction a as [|x a IH]; intros [|y b]; simpl.
  - split; reflexivity.
  - split; discriminate.
  - split; discriminate.
  - rewrite andb_true_iff, N.eqb_eq, IH. split.
    + intros [-> ->]; reflexivity.
    + intros E; injection E as -> ->; split; reflexivity.
Qed.

Lemma jseqb_refl (a : jsstring) : jseqb a a = true.
Proof. apply jseqb_eq; reflexivity. Qed.

Lemma jseqb_neq (a b : jsstring) : jseqb a b = false <-> a <> b.
Proof.
  rewrite <- jseqb_eq. destruct (jseqb a b); split; congruence.
Qed.

Lemma startsWith_app (p s : jsstring) : startsWith p (p ++ s) = true.
Proof.
  induction p as [|x p IH]; simpl; [reflexivity|].
  rewrite N.eqb_refl; exact IH.
Qed.

Lemma startsWith_split (p s : jsstring) :
  startsWith p s = true -> exists r, s = p ++ r.
Proof.
  revert s; induction p as [|x p IH]; intros s; simpl.
  - exists s; reflexivity.
  - destruct s as [|y s]; [discriminate|].
    rewrite andb_true_iff, N.eqb_eq. intros [-> Hs].
    destruct (IH _ Hs) as [r ->]. exists r; reflexivity.
Qed.

Lemma includes_spec (needle s : jsstring) :
  includes needle s = true <-> exists a b, s = a ++ needle ++ b.
Proof.
  induction s as [|c s IH]; simpl.
  - rewrite orb_false_r. split.
    + intros Hs. destruct (startsWith_split _ _ Hs) as [r E].
      exists [], r. exact E.
    + intros (a & b & E). destruct a; [|discriminate]. simpl in E.
      rewrite E. apply startsWith_app.
  - rewrite orb_true_iff, IH. split.
    + intros [Hs | (a & b & E)].
      * destruct (startsWith_split _ _ Hs) as [r E]. exists [], r. exact E.
      * exists (c :: a), b. rewrite E. reflexivity.
    + intros (a & b & E). destruct a as [|x a]; simpl in E.
      * left. rewrite E. apply startsWith_app.
      * right. inversion E; subst. exists a, b. reflexivity.
Qed.

Lemma takeWhile_dropWhile (p : N -> bool) (s : jsstring) :
  takeWhile p s ++ dropWhile p s = s.
Proof.
  induction s as [|c s IH]; simpl; [reflexivity|].
  destruct (p c); simpl; [rewrite IH|]; reflexivity.
Qed.

Lemma takeWhile_Forall (p : N -> bool) (s : jsstring) :
  Forall (fun c => p c = true) (takeWhile p s).
Proof.
  induction s as [|c s IH]; simpl; [constructor|].
  destruct (p c) eqn:E; constructor; assumption.
Qed.

Lemma skipn_takeWhile (p : N -> bool) (s : jsstring) :
  skipn (List.length (takeWhile p s)) s = dropWhile p s.
Proof.
  induction s as [|c s IH]; simpl; [reflexivity|].
  destruct (p c); simpl; [exact IH | reflexivity].
Qed.

Lemma dropWhile_head (p : N -> bool) (s : jsstring) (c : N) (r : jsstring) :
  dropWhile p s = c :: r -> p c = false.
Proof.
  induction s as [|x s IH]; simpl; [discriminate|].
  destruct (p x) eqn:E; [exact IH|]. intros H; inversion H; subst; exact E.
Qed.

Lemma dropWhile_id (p : N -> bool) (s : jsstring) :
  match s with c :: _ => p c = false | [] => True end -> dropWhile p s = s.
Proof.
  destruct s as [|c s]; simpl; [reflexivity|]. intros ->; reflexivity.
Qed.

Lemma takeWhile_all (p : N -> bool) (x rest : jsstring) :
  Forall (fun c => p c = true) x ->
  match rest with c :: _ => p c = false | [] => True end ->
  takeWhile p (x ++ rest) = x /\ dropWhile p (x ++ rest) = rest.
Proof.
  intros Hx Hr. induction Hx as [|c x Hc Hx IH]; simpl.
  - destruct rest as [|c r]; simpl; [split; reflexivity|].
    rewrite Hr; split; reflexivity.
  - rewrite Hc. destruct IH as [-> ->]; split; reflexivity.
Qed.

Lemma dropWhile_app (p : N -> bool) (a b : jsstring) :
  dropWhile p (a ++ b) =
  match dropWhile p a with
  | [] => dropWhile p b
  | d => d ++ b
  end.
Proof.
  induction a as [|c a IH]; simpl; [reflexivity|].
  destruct (p c); [exact IH | reflexivity].
Qed.

(** *** Facts on the replacement scan *)

Lemma replaceAll_skip m (k : nat) (s : jsstring) :
  replaceAll m k s = replaceAll m 0 (skipn k s).
Proof.
  revert k; induction s as [|c s IH]; intros [|k]; simpl; try reflexivity.
  apply IH.
Qed.

Lemma replaceAll_Forall (P Q : N -> Prop) m :
  (forall t n rep, m t = Some (n, rep) -> Forall P t -> Forall Q rep) ->
  (forall c r, P c -> m (c :: r) = None -> Q c) ->
  forall s k, Forall P s -> Forall Q (replaceAll m k s).
Proof.
  intros Hrep Hcopy. induction s as [|c s IH]; intros k Hs; simpl.
  - constructor.
  - inversion Hs as [|? ? Hc Hs']; subst. destruct k as [|k]; [|auto].
    destruct (m (c :: s)) as [[n rep]|] eqn:E.
    + apply Forall_app; split; [eapply Hrep; eauto | auto].
    + constructor; [eapply Hcopy; eauto | auto].
Qed.

(** No match anywhere: the scan copies the text. *)
Lemma replaceAll_id m (s : jsstring) :
  (forall a t, s = a ++ t -> m t = None) -> replaceAll m 0 s = s.
Proof.
  induction s as [|c s IH]; intros Hno; simpl; [reflexivity|].
  rewrite (Hno [] (c :: s) eq_refl). f_equal. apply IH.
  intros a t E. apply (Hno (c :: a) t). rewrite E; reflexivity.
Qed.

Lemma runMatch_None_head (p : N -> bool) (least : nat) (rep : jsstring)
    (c : N) (r : jsstring) :
  p c = false -> runMatch p least rep (c :: r) = None.
Proof.
  intros E. unfold runMatch. simpl. rewrite E. simpl.
  rewrite andb_false_r. reflexivity.
Qed.

Lemma runMatch_one_None (p : N -> bool) (rep : jsstring) (c : N)
    (r : jsstring) :
  runMatch p 1 rep (c :: r) = None -> p c = false.
Proof.
  unfold runMatch. simpl. destruct (p c); [|reflexivity]. discriminate.
Qed.

Lemma runMatch_rep (p : N -> bool) (least : nat) (rep t : jsstring)
    (n : nat) (rep' : jsstring) :
  runMatch p least rep t = Some (n, rep') -> rep' = rep.
Proof.
  unfold runMatch.
  destruct ((least <=? _)%nat && _); intros E; inversion E; reflexivity.
Qed.

Lemma replaceRuns_id (p : N -> bool) (least : nat) (rep s : jsstring) :
  Forall (fun c => p c = false) s -> replaceRuns p least rep s = s.
Proof.
  intros Hs. apply replaceAll_id. intros a [|c t] E.
  - unfold runMatch. simpl. rewrite andb_false_r. reflexivity.
  - apply runMatch_None_head. subst s.
    apply Forall_app in Hs. destruct Hs as [_ Hs]. inversion Hs; assumption.
Qed.

(* ------------------------------------------------------------------ *)
(** ** The slugifier *)

Lemma noDouble_app (a b : jsstring) :
  noDouble (a ++ b) = true -> noDouble a = true /\ noDouble b = true.
Proof.
  induction a as [|c a IH]; simpl; [auto|].
  rewrite !andb_true_iff. intros [H1 H2]. destruct (IH H2) as [Ha Hb].
  repeat split; auto.
  destruct a; simpl in *; [rewrite andb_false_r; reflexivity | exact H1].
Qed.

Lemma isSlugChar_not_space (c : N) : isSlugChar c = true -> isSpace c = false.
Proof.
  unfold isSlugChar, isLowerOrDigit, isHyphen, isSpace, inRange, hyphen.
  rewrite !orb_true_iff, !andb_true_iff, !N.leb_le, !N.eqb_eq.
  intros Hc.
  repeat (apply orb_false_intro); try (apply andb_false_iff);
    rewrite ?N.leb_gt, ?N.eqb_neq; lia.
Qed.

Lemma isSlugChar_word (c : N) :
  isSlugChar c = true -> notWordOrHyphen c = false.
Proof.
  unfold isSlugChar, notWordOrHyphen, isWord. intros H.
  apply negb_false_iff. apply orb_true_iff in H. destruct H as [H | H];
    rewrite H; rewrite ?orb_true_r; reflexivity.
Qed.

Lemma isSlugChar_of_word (c : N) :
  notWordOrHyphen c = false -> isUpper c = false -> isSlugChar c = true.
Proof.
  unfold isSlugChar, notWordOrHyphen, isWord. intros H Hu.
  apply negb_false_iff in H. rewrite Hu in H. exact H.
Qed.

Lemma isHyphen_not_upper (c : N) : isHyphen c = true -> isUpper c = false.
Proof.
  unfold isHyphen, isUpper, inRange, hyphen. rewrite N.eqb_eq. intros ->.
  reflexivity.
Qed.

Lemma runMatch_two (c : N) (s : jsstring) :
  runMatch isHyphen 2 [hyphen] (c :: s) =
  if isHyphen c then
    match takeWhile isHyphen s with
    | [] => None
    | _ :: w => Some (S (S (List.length w)), [hyphen])
    end
  else None.
Proof.
  unfold runMatch. simpl. destruct (isHyphen c); [|reflexivity].
  destruct (takeWhile isHyphen s); reflexivity.
Qed.

(** [/\-\-+/g]: what it leaves has no two hyphens side by side, and starts
    with a hyphen only where the text left to scan does. *)
Lemma collapse_invariant (s : jsstring) (k : nat) :
  let out := replaceAll (runMatch isHyphen 2 [hyphen]) k s in
  noDouble out = true
  /\ (startsHyphen out = true -> startsHyphen (skipn k s) = true).
Proof.
  revert k; induction s as [|c s IH]; intros k; cbv zeta.
  - destruct k; simpl; auto.
  - destruct k as [|k]; [|apply IH].
    cbn [replaceAll skipn]. rewrite runMatch_two.
    destruct (isHyphen c) eqn:Hc.
    + destruct (takeWhile isHyphen s) as [|d w] eqn:Hw.
      * (* a lone hyphen: copied *)
        destruct (IH 0%nat) as [Hn Hh]. simpl in Hn, Hh.
        cbn [noDouble startsHyphen]. rewrite Hc. split; [|reflexivity].
        rewrite Hn, andb_true_r. simpl.
        destruct (startsHyphen (replaceAll (runMatch isHyphen 2 [hyphen]) 0 s))
          eqn:Hs; [|reflexivity].
        specialize (Hh eq_refl). destruct s as [|x s]; [discriminate|].
        simpl in Hh, Hw. rewrite Hh in Hw. discriminate.
      * (* a run of two or more: one hyphen *)
        destruct (IH (S (List.length w))) as [Hn Hh].
        cbv zeta in Hn, Hh. cbn [pred app noDouble startsHyphen].
        rewrite Hc. split; [|reflexivity].
        change (isHyphen hyphen) with true. rewrite Hn, andb_true_r. simpl.
        destruct (startsHyphen
                    (replaceAll (runMatch isHyphen 2 [hyphen])
                       (S (List.length w)) s)) eqn:Hs; [|reflexivity].
        specialize (Hh eq_refl).
        change (S (List.length w)) with (List.length (d :: w)) in Hh.
        rewrite <- Hw, skipn_takeWhile in Hh.
        destruct (dropWhile isHyphen s) as [|x r] eqn:Hd; [discriminate|].
        apply dropWhile_head in Hd. simpl in Hh. congruence.
    + cbn [noDouble startsHyphen]. rewrite Hc. simpl.
      destruct (IH 0%nat) as [Hn _]. split; [exact Hn | discriminate].
Qed.

Lemma collapse_noDouble (s : jsstring) :
  noDouble (replaceRuns isHyphen 2 [hyphen] s) = true.
Proof. apply (collapse_invariant s 0). Qed.

Lemma collapse_id (s : jsstring) :
  noDouble s = true -> replaceRuns isHyphen 2 [hyphen] s = s.
Proof.
  intros Hs. apply replaceAll_id. intros a t E. subst s.
  apply noDouble_app in Hs. destruct Hs as [_ Ht].
  unfold runMatch. destruct t as [|c [|d t]]; simpl.
  - reflexivity.
  - destruct (isHyphen c); reflexivity.
  - simpl in Ht. destruct (isHyphen c); [|reflexivity].
    destruct (isHyphen d); [discriminate | reflexivity].
Qed.

(** [/-+$/]: what is cut is a run of hyphens at the end. *)
Lemma trimEnd_prefix (p : N -> bool) (s : jsstring) :
  exists t, s = rev (dropWhile p (rev s)) ++ t.
Proof.
  exists (rev (takeWhile p (rev s))).
  rewrite <- rev_app_distr, takeWhile_dropWhile, rev_involutive.
  reflexivity.
Qed.

Lemma trimEnd_last (p : N -> bool) (s r : jsstring) (c : N) :
  rev (dropWhile p (rev s)) = r ++ [c] -> p c = false.
Proof.
  intros E. apply (f_equal (@rev N)) in E.
  rewrite rev_involutive, rev_app_distr in E. simpl in E.
  eapply dropWhile_head; eassumption.
Qed.

Lemma trimEnd_id (p : N -> bool) (s : jsstring) :
  (forall r c, s = r ++ [c] -> p c = false) ->
  rev (dropWhile p (rev s)) = s.
Proof.
  intros H. rewrite dropWhile_id; [apply rev_involutive|].
  destruct (rev s) as [|c r] eqn:E; [exact I|].
  apply (H (rev r) c). rewrite <- (rev_involutive s), E. reflexivity.
Qed.

Lemma slugify_shape
  (lower_no_upper : forall s, Forall (fun c => isUpper c = false) (toLowerCase s))
  (text : jsstring) :
  Forall (fun c => isSlugChar c = true) (slugify text)
  /\ noDouble (slugify text) = true
  /\ (forall r, slugify text <> hyphen :: r)
  /\ (forall r, slugify text <> r ++ [hyphen]).
Proof.
  unfold slugify.
  set (s1 := toLowerCase text).
  set (s2 := replaceRuns isSpace 1 [hyphen] s1).
  set (s3 := replaceRuns notWordOrHyphen 1 [] s2).
  set (s4 := replaceRuns isHyphen 2 [hyphen] s3).
  set (s5 := dropWhile isHyphen s4).
  assert (H2 : Forall (fun c => isUpper c = false) s2).
  { apply replaceAll_Forall with (P := fun c => isUpper c = false).
    - intros t n rep E _. apply runMatch_rep in E. subst rep.
      repeat constructor.
    - auto.
    - apply lower_no_upper. }
  assert (H3 : Forall (fun c => isSlugChar c = true) s3).
  { apply replaceAll_Forall with (P := fun c => isUpper c = false).
    - intros t n rep E _. apply runMatch_rep in E. subst rep. constructor.
    - intros c r Hu E. apply runMatch_one_None in E.
      apply isSlugChar_of_word; assumption.
    - exact H2. }
  assert (H4 : Forall (fun c => isSlugChar c = true) s4).
  { apply replaceAll_Forall with (P := fun c => isSlugChar c = true).
    - intros t n rep E _. apply runMatch_rep in E. subst rep.
      repeat constructor.
    - auto.
    - exact H3. }
  assert (N4 : noDouble s4 = true) by apply collapse_noDouble.
  assert (E5 : s4 = takeWhile isHyphen s4 ++ s5)
    by (symmetry; apply takeWhile_dropWhile).
  destruct (trimEnd_prefix isHyphen s5) as [t Et].
  set (y := rev (dropWhile isHyphen (rev s5))) in *.
  assert (H5 : Forall (fun c => isSlugChar c = true) s5).
  { rewrite E5 in H4. apply Forall_app in H4. exact (proj2 H4). }
  assert (N5 : noDouble s5 = true).
  { rewrite E5 in N4. apply noDouble_app in N4. exact (proj2 N4). }
  repeat split.
  - rewrite Et in H5. apply Forall_app in H5. exact (proj1 H5).
  - rewrite Et in N5. apply noDouble_app in N5. exact (proj1 N5).
  - intros r Ey. rewrite Ey in Et. simpl in Et.
    apply dropWhile_head in Et. discriminate.
  - intros r Ey. apply trimEnd_last in Ey. discriminate.
Qed.

(** C2.  Whatever the text, [slugify] yields lower-case word characters and
    hyphens only, with no hyphen in front or at the end, and slugifying a
    slug changes nothing.  [toLowerCase] is the runtime's; what is used of it
    is that its result has no upper-case ASCII letter and that it leaves
    a text of lower-case word characters and hyphens alone. *)
Theorem slugify_slug_idempotent
  (lower_no_upper : forall s, Forall (fun c => isUpper c = false) (toLowerCase s))
  (lower_slug : forall s, Forall (fun c => isSlugChar c = true) s ->
                          toLowerCase s = s)
  (text : jsstring) :
  Forall (fun c => isSlugChar c = true) (slugify text)
  /\ (forall r, slugify text <> hyphen :: r)
  /\ (forall r, slugify text <> r ++ [hyphen])
  /\ slugify (slugify text) = slugify text.
Proof.
  destruct (slugify_shape lower_no_upper text) as (Hc & Hn & Hh & Hl).
  repeat split; try assumption.
  set (y := slugify text) in *. unfold slugify at 1.
  rewrite (lower_slug y Hc).
  rewrite (replaceRuns_id isSpace).
  2:{ eapply Forall_impl; [|exact Hc]. apply isSlugChar_not_space. }
  rewrite (replaceRuns_id notWordOrHyphen).
  2:{ eapply Forall_impl; [|exact Hc]. apply isSlugChar_word. }
  rewrite (collapse_id y Hn).
  rewrite (dropWhile_id isHyphen y).
  2:{ destruct y as [|c r] eqn:E; [exact I|].
      destruct (isHyphen c) eqn:Hy; [|reflexivity].
      exfalso. apply (Hh r). unfold isHyphen in Hy.
      apply N.eqb_eq in Hy. subst c. reflexivity. }
  apply trimEnd_id. intros r c E.
  destruct (isHyphen c) eqn:Hy; [|reflexivity].
  exfalso. apply (Hl r). unfold isHyphen in Hy.
  apply N.eqb_eq in Hy. subst c. exact E.
Qed.

(* ------------------------------------------------------------------ *)
(** ** Induction on the collection tree *)

Lemma Node_induction (P : Node -> Prop) :
  (forall n, Forall P (children n) -> P n) -> forall n, P n.
Proof.
  intros step. fix IH 1. intros [nm desc it req resp]. apply step.
  unfold children; simpl. destruct it as [l|]; [|constructor].
  induction l as [|c r IHr]; constructor; [apply IH | exact IHr].
Qed.

Lemma flat_map_map (A B C : Type) (f : B -> list C) (g : A -> B)
    (l : list A) :
  flat_map f (List.map g l) = flat_map (fun x => f (g x)) l.
Proof.
  induction l as [|x l IH]; simpl; [reflexivity | rewrite IH; reflexivity].
Qed.

Lemma flat_map_nil (A B : Type) (f : A -> list B) (l : list A) :
  (forall x, In x l -> f x = []) -> flat_map f l = [].
Proof.
  induction l as [|x l IH]; intros H; simpl; [reflexivity|].
  rewrite (H x (or_introl eq_refl)), IH; [reflexivity|].
  intros y Hy; apply H; right; exact Hy.
Qed.

Lemma flat_map_ext_in (A B : Type) (f g : A -> list B) (l : list A) :
  (forall x, In x l -> f x = g x) -> flat_map f l = flat_map g l.
Proof.
  induction l as [|x l IH]; intros H; simpl; [reflexivity|].
  rewrite (H x (or_introl eq_refl)), IH; [reflexivity|].
  intros y Hy; apply H; right; exact Hy.
Qed.

(** ** The identifiers a fragment carries *)

Lemma attributes_Elem (k : string) (t : tag) (attrs : list (string * jsstring))
    (cs : list html) :
  attributes k (Elem t attrs cs)
  = attrValues k attrs ++ flat_map (attributes k) cs.
Proof. reflexivity. Qed.

Section Fragments.

Variable translations : Translations.

Lemma tableHead_attributes (k : string) (labels : list jsstring) :
  attributes k (tableHead labels) = [].
Proof.
  unfold tableHead. simpl. rewrite flat_map_map, flat_map_nil; reflexivity.
Qed.

Lemma queryParametersSection_ids (queryParams : list Param) :
  flat_map (attributes "id") (queryParametersSection translations queryParams)
  = [].
Proof.
  unfold queryParametersSection.
  destruct (List.filter keepQueryParam queryParams) as [|p l]; [reflexivity|].
  cbn -[List.map tableHead]. rewrite tableHead_attributes.
  rewrite flat_map_map, flat_map_nil; reflexivity.
Qed.

Lemma headersSection_ids (headers : list Param) :
  flat_map (attributes "id") (headersSection translations headers) = [].
Proof.
  unfold headersSection. destruct headers as [|p l]; [reflexivity|].
  cbn -[List.map tableHead]. rewrite tableHead_attributes.
  rewrite flat_map_map, flat_map_nil; reflexivity.
Qed.

Lemma requestBodySection_ids (body0 : option Body) :
  flat_map (attributes "id") (requestBodySection translations body0) = [].
Proof.
  unfold requestBodySection. destruct body0 as [b|]; [|reflexivity].
  destruct (optionIs (mode b) (lit "raw") && truthy (bodyRaw b));
    [reflexivity|].
  destruct (formdata b) as [entries|]; [|reflexivity].
  destruct (optionIs (mode b) (lit "formdata")); [|reflexivity].
  cbn -[List.map tableHead]. rewrite tableHead_attributes.
  rewrite flat_map_map, flat_map_nil; reflexivity.
Qed.

Lemma renderResponse_ids (response0 : ResponseExample) :
  attributes "id" (renderResponse translations response0) = [].
Proof.
  unfold renderResponse. cbn [attributes attrValues List.filter List.map
    fst snd String.eqb Ascii.eqb Bool.eqb app].
  rewrite flat_map_app.
  destruct (jseqb (responseContentType response0) (lit "text/plain"));
    destruct (responseBody response0) as [[|c b]|]; try reflexivity;
    unfold responseBodyBlock;
    destruct (10 <? lineCount _)%Z; reflexivity.
Qed.

Lemma responseExamplesSection_ids (rs : option (list ResponseExample)) :
  flat_map (attributes "id") (responseExamplesSection translations rs) = [].
Proof.
  unfold responseExamplesSection. destruct rs as [[|r rs]|]; try reflexivity.
  cbn -[List.map renderResponse]. rewrite flat_map_map, flat_map_nil;
    [reflexivity|]. intros; apply renderResponse_ids.
Qed.

Lemma generateEndpointContent_ids (parentPath : list jsstring)
    (endpoint : Node) :
  attributes "id" (generateEndpointContent translations parentPath endpoint)
  = [getEndpointId (PathArray parentPath) (name endpoint)].
Proof.
  unfold generateEndpointContent.
  destruct (request endpoint) as [rq|]; [|reflexivity].
  cbn [attributes attrValues List.filter List.map fst snd String.eqb
       Ascii.eqb Bool.eqb app flat_map].
  rewrite flat_map_app.
  destruct (truthy _);
    cbn [attributes attrValues List.filter List.map fst snd String.eqb
         Ascii.eqb Bool.eqb app flat_map];
    rewrite !flat_map_app, queryParametersSection_ids, headersSection_ids,
      requestBodySection_ids, responseExamplesSection_ids;
    reflexivity.
Qed.

(** The link targets of one entry of the table of contents. *)
Lemma generateTocItem_hrefs nm desc it rq rs (parentPath : list jsstring) :
  attributes "href" (generateTocItem (mkNode nm desc it rq rs) parentPath)
  = anchorOf (getFolderId (inl (join (lit "-") (parentPath ++ [nm]))))
    :: flat_map
         (fun sub =>
            if isFolder sub
            then attributes "href" (generateTocItem sub (parentPath ++ [nm]))
            else [anchorOf (getEndpointId (PathArray (parentPath ++ [nm]))
                              (name sub))])
         (children (mkNode nm desc it rq rs)).
Proof.
  unfold children, anchorOf; simpl item.
  destruct it as [[|c subs]|]; try reflexivity.
  cbn [generateTocItem]. remember (c :: subs) as l eqn:El.
  cbn [attributes flat_map app attrValues List.filter List.map fst snd
       String.eqb Ascii.eqb Bool.eqb].
  rewrite !app_nil_r. f_equal. rewrite flat_map_map.
  apply flat_map_ext_in. intros sub _. destruct (isFolder sub); reflexivity.
Qed.

(** The identifiers of one section of the content. *)
Lemma generateFolderContent_ids nm desc it rq rs (parentPath : list jsstring)
    (headerLevel : Z) :
  attributes "id"
    (generateFolderContent translations (mkNode nm desc it rq rs) parentPath
       headerLevel)
  = getFolderId (inl (join (lit "-") (parentPath ++ [nm])))
    :: flat_map
         (fun sub =>
            if isFolder sub
            then attributes "id"
                   (generateFolderContent translations sub
                      (parentPath ++ [nm]) (Z.min (headerLevel + 1) 6))
            else [getEndpointId (PathArray (parentPath ++ [nm])) (name sub)])
         (children (mkNode nm desc it rq rs)).
Proof.
  unfold children; simpl item.
  cbn [generateFolderContent]. rewrite attributes_Elem.
  change (attrValues "id"
            [("id"%string,
              getFolderId (inl (join (lit "-") (parentPath ++ [nm]))))])
    with [getFolderId (inl (join (lit "-") (parentPath ++ [nm])))].
  cbn [app flat_map]. f_equal. rewrite attributes_Elem.
  change (attrValues "id" []) with (@nil jsstring).
  cbn [app flat_map attributes]. rewrite flat_map_app.
  replace (flat_map (attributes "id")
             (if truthy desc
              then [Elem (T "div") [("class"%string, lit "folder-description")]
                      [Text (makeHtml (interpolate desc))]]
              else [])) with (@nil jsstring)
    by (destruct (truthy desc); reflexivity).
  cbn [app]. destruct it as [[|c subs]|]; try reflexivity.
  rewrite flat_map_map.
  apply flat_map_ext_in. intros sub _. destruct (isFolder sub);
    [reflexivity | apply generateEndpointContent_ids].
Qed.

(** Link targets and identifiers of one node, walked by both passes. *)
Lemma toc_content_item (item0 : Node) :
  forall parentPath headerLevel,
    attributes "href" (generateTocItem item0 parentPath)
    = List.map anchorOf
        (attributes "id"
           (generateFolderContent translations item0 parentPath headerLevel)).
Proof.
  induction item0 as [[nm desc it rq rs] IH] using Node_induction.
  intros parentPath headerLevel.
  rewrite generateTocItem_hrefs, generateFolderContent_ids.
  cbn [List.map]. f_equal.
  rewrite Forall_forall in IH.
  rewrite !flat_map_concat_map, concat_map, List.map_map. f_equal.
  apply map_ext_in. intros sub Hin. destruct (isFolder sub).
  - apply (IH sub Hin).
  - reflexivity.
Qed.

End Fragments.

(* ------------------------------------------------------------------ *)
(** ** Table of contents and content, in lock-step *)

Lemma anchorOf_injective (a b : jsstring) : anchorOf a = anchorOf b -> a = b.
Proof. unfold anchorOf. apply app_inv_head. Qed.

Lemma toc_content_lists (translations : Translations) (folders0 : list Node) :
  linkTargets (generateTableOfContents folders0)
  = List.map anchorOf
      (sectionIds (generateFoldersContent translations folders0)).
Proof.
  unfold linkTargets, sectionIds, generateTableOfContents,
    generateFoldersContent.
  rewrite !flat_map_map, !flat_map_concat_map, concat_map, List.map_map.
  f_equal. apply map_ext. intros folder.
  exact (@toc_content_item translations folder [] 2%Z).
Qed.

(** C1 (amended).  The link targets of the table of contents are, one for
    one and in the same order, the identifiers of the sections and endpoint
    blocks of the content, each behind its [#]: both passes derive the same
    identifier for the same node.  When the identifiers of the collection are
    pairwise distinct, every link target has exactly one section and every
    section exactly one link target. *)
Theorem toc_content_lockstep (translations : Translations)
    (folders0 : list Node) :
  let targets := linkTargets (generateTableOfContents folders0) in
  let ids := sectionIds (generateFoldersContent translations folders0) in
  targets = List.map anchorOf ids
  /\ (NoDup ids -> oneToOne targets ids).
Proof.
  cbv zeta. split; [apply toc_content_lists|].
  intros Hnd. rewrite (toc_content_lists translations).
  set (ids := sectionIds (generateFoldersContent translations folders0)) in *.
  split.
  - intros t Ht. apply in_map_iff in Ht. destruct Ht as (id & <- & Hid).
    exists id. split; [reflexivity|].
    apply (proj1 (NoDup_count_occ' jsstring_eq_dec ids) Hnd id Hid).
  - intros id Hid.
    rewrite <- (count_occ_map anchorOf jsstring_eq_dec jsstring_eq_dec
                  anchorOf_injective).
    apply (proj1 (NoDup_count_occ' jsstring_eq_dec ids) Hnd id Hid).
Qed.

(* ------------------------------------------------------------------ *)
(** ** Heading levels *)

Section Headings.

Variable translations : Translations.







End Headings.


(* ------------------------------------------------------------------ *)
(** ** Endpoints *)

(** C7.  An endpoint without a request is rendered as its title and the
    no-request-information message and nothing more: no parameter, header or
    body section, no response example, no table, no code block. *)
Theorem endpoint_without_request (translations : Translations)
    (parentPath : list jsstring) (endpoint : Node) :
  request endpoint = None ->
  let fragment := generateEndpointContent translations parentPath endpoint in
  elementContent fragment
  = [Elem (H 4) [] [Text (name endpoint)];
     Elem (T "p") [] [Text (noRequestInfoAvailable translations)]]
  /\ textContent fragment
     = name endpoint ++ noRequestInfoAvailable translations
  /\ attributes "id" fragment
     = [getEndpointId (PathArray parentPath) (name endpoint)]
  /\ byClass (lit "params-section") fragment = []
  /\ byClass (lit "response-example") fragment = []
  /\ byClass (lit "endpoint-details") fragment = []
  /\ byTag "table" fragment = []
  /\ byTag "pre" fragment = [].
Proof.
  intros Hrq. cbv zeta. unfold generateEndpointContent. rewrite Hrq.
  repeat split; try reflexivity.
  simpl. rewrite !app_nil_r. reflexivity.
Qed.



Lemma keepQueryParam_isExcluded (param : Param) :
  keepQueryParam param = negb (isExcluded param).
Proof.
  unfold keepQueryParam, isExcluded, isAuthParam, caseInsensitiveIs.
  destruct (key param) as [[|c k]|]; simpl; try reflexivity.
  rewrite negb_orb. reflexivity.
Qed.

(** C8 (amended).  The query-parameter table comes first in the details
    block that closes an endpoint.  Its rows are, in source order, the parameters that have a
    name other than [token] and [key], letter case aside; each row shows the
    name, the normalized value and the description.  A parameter with no name
    or an empty one is left out as well. *)
Theorem query_parameter_rows (translations : Translations)
    (parentPath : list jsstring) (endpoint : Node) (request0 : Request) :
  request endpoint = Some request0 ->
  let params := queryParamsOf request0 in
  let table := queryParametersSection translations params in
  (exists front others,
      elementContent
        (generateEndpointContent translations parentPath endpoint)
      = front
        ++ [Elem (T "div") [("class"%string, lit "endpoint-details")]
              (table ++ others)])
  /\ flat_map tableRows table
     = List.map queryParamRow
         (List.filter (fun param => negb (isExcluded param)) params)
  /\ (forall param,
        List.map textContent (elementContent (queryParamRow param))
        = [interpolate (key param);
           cleanText (orDefault (value param) []);
           escapeHtml (orDefault (paramDescription param) [])]).
Proof.
  intros Hrq. cbv zeta. split; [|split].
  - unfold generateEndpointContent. rewrite Hrq.
    cbn [elementContent]. rewrite app_assoc. eexists. eexists. reflexivity.
  - unfold queryParametersSection.
    rewrite (filter_ext _ _ keepQueryParam_isExcluded).
    destruct (List.filter (fun a => negb (isExcluded a))
                (queryParamsOf request0)) as [|p l] eqn:E; [reflexivity|].
    unfold tableRows. cbn -[List.map tableHead queryParamRow].
    assert (Hh : forall labels, byTag "tbody" (tableHead labels) = []).
    { intros labels. unfold tableHead. simpl.
      rewrite flat_map_map, flat_map_nil; reflexivity. }
    assert (Hr : forall ps,
               flat_map (byTag "tbody") (List.map queryParamRow ps) = []).
    { intros ps. rewrite flat_map_map. apply flat_map_nil. reflexivity. }
    rewrite Hh, Hr. cbn -[List.map queryParamRow]. rewrite !app_nil_r.
    reflexivity.
  - intros param. simpl. rewrite !app_nil_r. reflexivity.
Qed.

(* ------------------------------------------------------------------ *)
(** ** Top-level nodes without children *)

(** C10 (amended).  A top-level node without a child sequence is walked as
    a folder by both passes: the content has a section for it with a
    [folder-] identifier, holding its title at level 2 and, when the node has
    a description, that description; the table of contents has a plain entry
    linking to the section.  Nothing of its request or of its response
    examples is rendered: the section and the entry are those of the node
    with both taken away. *)
Theorem top_level_endpoint_as_folder (translations : Translations)
    (folders0 : list Node) (node : Node) :
  In node folders0 -> item node = None ->
  let section := generateFolderContent translations node [] 2 in
  let entry := generateTocItem node [] in
  let id := lit "folder-" ++ slugify (name node) in
  In section (generateFoldersContent translations folders0)
  /\ In entry (generateTableOfContents folders0)
  /\ section
     = Elem (T "section") [("id"%string, id)]
         (Elem (H 2) [] [Text (name node)]
          :: descriptionBlock (description node))
  /\ entry
     = Elem (T "li") []
         [Elem (T "a") [("href"%string, anchorOf id)] [Text (name node)]]
  /\ section
     = generateFolderContent translations
         (mkNode (name node) (description node) None None None) [] 2
  /\ entry
     = generateTocItem (mkNode (name node) (description node) None None None)
         [].
Proof.
  intros Hin Hit. cbv zeta. split; [|split].
  - unfold generateFoldersContent.
    apply (in_map (fun folder => generateFolderContent translations folder [] 2)).
    exact Hin.
  - unfold generateTableOfContents.
    apply (in_map (fun folder => generateTocItem folder [])). exact Hin.
  - destruct node as [nm desc it rq rs]. simpl in Hit. subst it.
    unfold descriptionBlock. simpl. rewrite !app_nil_r.
    repeat split; reflexivity.
Qed.

(* ------------------------------------------------------------------ *)
(** ** The variable normalizer *)

Lemma replaceAll_match m (s : jsstring) (n : nat) (rep : jsstring) :
  m s = Some (S n, rep) -> s <> [] ->
  replaceAll m 0 s = rep ++ replaceAll m 0 (skipn (S n) s).
Proof.
  intros E Hs. destruct s as [|c r]; [congruence|].
  simpl. rewrite E. simpl. rewrite replaceAll_skip. reflexivity.
Qed.

Lemma replaceAll_copy m (c : N) (r : jsstring) :
  m (c :: r) = None -> replaceAll m 0 (c :: r) = c :: replaceAll m 0 r.
Proof. intros E. simpl. rewrite E. reflexivity. Qed.

Lemma notClose_Forall (x : jsstring) :
  Forall (fun c => c <> closeBrace) x <->
  Forall (fun c => notClose c = true) x.
Proof.
  split; intros H; (eapply Forall_impl; [|exact H]); intros c; unfold notClose;
    rewrite negb_true_iff, N.eqb_neq; auto.
Qed.

Lemma placeholderMatch_Some (t : jsstring) (n : nat) (rep : jsstring) :
  placeholderMatch t = Some (n, rep) ->
  isVariableName rep
  /\ n = (List.length rep + 4)%nat
  /\ exists rest, t = placeholder rep ++ rest.
Proof.
  unfold placeholderMatch. destruct t as [|a [|b r]]; try discriminate.
  destruct (N.eqb_spec a openBrace) as [-> | ]; [|discriminate].
  destruct (N.eqb_spec b openBrace) as [-> | ]; [|discriminate].
  cbn [andb]. fold notClose.
  pose proof (takeWhile_dropWhile notClose r) as Hr.
  pose proof (takeWhile_Forall notClose r) as Hf.
  destruct (takeWhile notClose r) as [|x inner] eqn:Ht; [discriminate|].
  destruct (startsWith [closeBrace; closeBrace] (dropWhile notClose r)) eqn:Hs;
    [|discriminate].
  intros E; inversion E; subst n rep; clear E.
  apply startsWith_split in Hs. destruct Hs as [rest Hd].
  repeat split.
  - discriminate.
  - apply notClose_Forall. exact Hf.
  - exists rest. rewrite <- Hr, Hd. unfold placeholder.
    change (lit "{{") with [openBrace; openBrace].
    change (lit "}}") with [closeBrace; closeBrace].
    simpl. rewrite <- app_assoc. reflexivity.
Qed.

Lemma placeholderMatch_at (x after : jsstring) :
  isVariableName x ->
  placeholderMatch (placeholder x ++ after)
  = Some ((List.length x + 4)%nat, x).
Proof.
  intros [Hne Hx]. apply notClose_Forall in Hx.
  unfold placeholder. change (lit "{{") with [openBrace; openBrace].
  change (lit "}}") with [closeBrace; closeBrace].
  rewrite <- !app_assoc. cbn [app placeholderMatch].
  rewrite !N.eqb_refl. cbn [andb]. fold notClose.
  destruct (@takeWhile_all notClose x (closeBrace :: closeBrace :: after) Hx)
    as [Ht Hd]; [reflexivity|].
  cbn [app] in Ht, Hd. rewrite Ht, Hd.
  destruct x as [|c x]; [congruence|].
  cbn [startsWith]. rewrite !N.eqb_refl. reflexivity.
Qed.

Lemma skipn_past (x y : jsstring) (k : nat) :
  skipn (List.length x + k) (x ++ y) = skipn k y.
Proof. induction x as [|c x IH]; [reflexivity | exact IH]. Qed.

(** A placeholder at the front is replaced by its variable name. *)
Lemma cleanText_placeholder (x after : jsstring) :
  isVariableName x ->
  cleanText (placeholder x ++ after) = x ++ cleanText after.
Proof.
  intros Hx. unfold cleanText.
  pose proof (@placeholderMatch_at x after Hx) as E.
  replace (List.length x + 4)%nat with (S (List.length x + 3)) in E by lia.
  rewrite (@replaceAll_match placeholderMatch _ _ _ E).
  - f_equal. f_equal. unfold placeholder.
    change (lit "{{") with [openBrace; openBrace].
    change (lit "}}") with [closeBrace; closeBrace].
    rewrite <- !app_assoc.
    replace (S (List.length x + 3)) with (2 + (List.length x + 2))%nat by lia.
    cbn [app Nat.add skipn].
    exact (skipn_past x (closeBrace :: closeBrace :: after) 2).
  - unfold placeholder. discriminate.
Qed.

(** Text without braces is copied. *)
Lemma cleanText_literal (l after : jsstring) :
  braceFree l -> cleanText (l ++ after) = l ++ cleanText after.
Proof.
  intros Hl. unfold cleanText. induction Hl as [|c l Hc Hl IH]; [reflexivity|].
  cbn [app]. rewrite replaceAll_copy; [rewrite IH; reflexivity|].
  unfold placeholderMatch. destruct (l ++ after); [reflexivity|].
  unfold isBrace in Hc. apply orb_false_iff in Hc. destruct Hc as [-> _].
  reflexivity.
Qed.

Lemma cleanText_template (segments : list segment) :
  wellFormed segments ->
  cleanText (templateText segments) = templateValue segments.
Proof.
  intros Hw. induction Hw as [|sg segs Hsg Hw IH]; [reflexivity|].
  destruct sg as [text | x]; cbn [templateText templateValue].
  - rewrite cleanText_literal, IH; [reflexivity | exact Hsg].
  - rewrite cleanText_placeholder, IH; [reflexivity|].
    destruct Hsg as [Hne Hx]. split; [exact Hne|].
    eapply Forall_impl; [|exact Hx]. intros c Hc ->. discriminate.
Qed.

Lemma templateValue_braceFree (segments : list segment) :
  wellFormed segments -> braceFree (templateValue segments).
Proof.
  intros Hw. induction Hw as [|sg segs Hsg Hw IH]; [constructor|].
  destruct sg as [text | x]; cbn [templateValue]; apply Forall_app; split;
    solve [exact Hsg | exact (proj2 Hsg) | exact IH].
Qed.

Lemma braceFree_no_pair (s : jsstring) (c : N) :
  braceFree s -> isBrace c = true -> includes [c; c] s = false.
Proof.
  intros Hs Hc. destruct (includes [c; c] s) eqn:E; [|reflexivity].
  apply includes_spec in E. destruct E as (a & b & ->).
  apply Forall_app in Hs. destruct Hs as [_ Hs]. inversion Hs; congruence.
Qed.

(** Two ways to cut one text at a closing brace, the first cut being at its
    first closing brace. *)
Lemma first_close_split (A B : jsstring) (u : jsstring) :
  forall pre w,
    Forall (fun c => c <> closeBrace) u ->
    Forall (fun c => c <> closeBrace) w ->
    u ++ closeBrace :: A = pre ++ w ++ closeBrace :: B ->
    (u = pre ++ w /\ A = B)
    \/ (exists pre2, pre = u ++ closeBrace :: pre2
                     /\ A = pre2 ++ w ++ closeBrace :: B).
Proof.
  induction u as [|e u IH]; intros pre w Hu Hw E.
  - destruct pre as [|d pre]; cbn [app] in E.
    + destruct w as [|d w]; cbn [app] in E.
      * left. injection E as E. auto.
      * injection E as Ed E. subst d. apply Forall_inv in Hw. congruence.
    + injection E as Ed E. subst d. right. exists pre. auto.
  - pose proof (Forall_inv Hu) as He.
    pose proof (Forall_inv_tail Hu) as Hu'.
    destruct pre as [|d pre]; cbn [app] in E.
    + destruct w as [|d w]; cbn [app] in E.
      * injection E as Ed E. congruence.
      * injection E as Ed E. subst d.
        destruct (IH [] w Hu' (Forall_inv_tail Hw) E)
          as [[Eu EA] | (pre2 & Hp & _)].
        -- left. cbn [app] in *. subst. auto.
        -- destruct u; discriminate.
    + injection E as Ed E. subst d.
      destruct (IH pre w Hu' Hw E) as [[Eu EA] | (pre2 & Ep & EA)].
      * left. subst. auto.
      * right. exists pre2. subst. auto.
Qed.

(** The variable name of a placeholder stays in the text. *)
Lemma cleanText_keeps_name (x after : jsstring) :
  isVariableName x ->
  forall (n : nat) (before : jsstring),
    (List.length before <= n)%nat ->
    exists a b, cleanText (before ++ placeholder x ++ after) = a ++ x ++ b.
Proof.
  intros Hx. induction n as [|n IH]; intros before Hn.
  - destruct before; [|simpl in Hn; lia].
    exists [], (cleanText after). apply cleanText_placeholder. exact Hx.
  - destruct before as [|p before].
    { exists [], (cleanText after). apply cleanText_placeholder. exact Hx. }
    simpl in Hn.
    destruct (placeholderMatch ((p :: before) ++ placeholder x ++ after))
      as [[k rep]|] eqn:E.
    + destruct (placeholderMatch_Some _ E) as ([Hne Hrep] & -> & rest & Et).
      assert (Ec : cleanText ((p :: before) ++ placeholder x ++ after)
                   = rep ++ cleanText rest).
      { rewrite Et. apply cleanText_placeholder. split; assumption. }
      rewrite Ec. clear Ec E.
      unfold placeholder in Et.
      change (lit "{{") with [openBrace; openBrace] in Et.
      change (lit "}}") with [closeBrace; closeBrace] in Et.
      rewrite <- !app_assoc in Et. cbn [app] in Et.
      destruct Hx as [Hxne Hxc].
      assert (Hu : Forall (fun c => c <> closeBrace)
                     (openBrace :: openBrace :: rep))
        by (repeat constructor; try discriminate; exact Hrep).
      assert (Hw : Forall (fun c => c <> closeBrace)
                     (openBrace :: openBrace :: x))
        by (repeat constructor; try discriminate; exact Hxc).
      destruct (@first_close_split (closeBrace :: rest) (closeBrace :: after)
                  (openBrace :: openBrace :: rep) (p :: before)
                  (openBrace :: openBrace :: x) Hu Hw)
        as [[Eu _] | (pre2 & Ep & Er)].
      { cbn [app]. symmetry. exact Et. }
      * (* the match ends with the placeholder *)
        destruct before as [|q before]; cbn [app] in Eu.
        -- inversion Eu; subst. exists [openBrace], (cleanText rest).
           reflexivity.
        -- inversion Eu; subst.
           exists (before ++ [openBrace; openBrace]), (cleanText rest).
           rewrite <- !app_assoc. reflexivity.
      * (* the match ends before the placeholder *)
        destruct pre2 as [|c2 pre2]; cbn [app] in Er; [discriminate|].
        inversion Er; subst c2 rest.
        destruct (IH pre2) as (a & b & Eab).
        { apply (f_equal (@List.length N)) in Ep. simpl in Ep.
          rewrite length_app in Ep. simpl in Ep. lia. }
        exists (rep ++ a), b.
        unfold placeholder in Eab.
        change (lit "{{") with [openBrace; openBrace] in Eab.
        change (lit "}}") with [closeBrace; closeBrace] in Eab.
        rewrite <- !app_assoc in Eab. cbn [app] in Eab.
        rewrite Eab, <- app_assoc. reflexivity.
    + destruct (IH before) as (a & b & Eab); [lia|].
      exists (p :: a), b. unfold cleanText in *. cbn [app] in *.
      rewrite replaceAll_copy; [|exact E]. rewrite Eab. reflexivity.
Qed.

Lemma cleanText_without_placeholder (text : jsstring) :
  ~ hasPlaceholder text -> cleanText text = text.
Proof.
  intros Hno. apply replaceAll_id. intros a t E.
  destruct (placeholderMatch t) as [[n rep]|] eqn:Em; [|reflexivity].
  exfalso. apply Hno.
  destruct (placeholderMatch_Some _ Em) as (Hrep & _ & rest & Et).
  exists a, rep, rest. split; [exact Hrep|]. rewrite E, Et. reflexivity.
Qed.

(** C3 (amended).  The variable name of every placeholder of a text stays in
    the cleaned text.  A text made of brace-free literal text and placeholders
    with brace-free names is cleaned to the same text with each placeholder
    replaced by its name, in which neither [{{] nor [}}] occurs.  A text
    without placeholder comes back unchanged, and so does a value that is not
    a string. *)
Theorem cleanPostmanVariables_spec :
  (forall before x after,
      isVariableName x ->
      includes x (cleanText (before ++ placeholder x ++ after)) = true)
  /\ (forall segments,
        wellFormed segments ->
        cleanText (templateText segments) = templateValue segments
        /\ includes (lit "{{") (cleanText (templateText segments)) = false
        /\ includes (lit "}}") (cleanText (templateText segments)) = false)
  /\ (forall text, ~ hasPlaceholder text -> cleanText text = text)
  /\ (forall (A : Type) (text : jsstring),
        cleanPostmanVariables (inl text : jsstring + A) = inl (cleanText text))
  /\ (forall (A : Type) (other : A),
        cleanPostmanVariables (inr other : jsstring + A) = inr other).
Proof.
  split; [|split; [|split; [|split]]].
  - intros before x after Hx.
    destruct (@cleanText_keeps_name x after Hx (List.length before) before
                (le_n _)) as (a & b & E).
    rewrite E. apply includes_spec. exists a, b. reflexivity.
  - intros segments Hw. rewrite (cleanText_template Hw).
    pose proof (templateValue_braceFree Hw) as Hb.
    split; [reflexivity|]. split.
    + apply (@braceFree_no_pair _ openBrace Hb). reflexivity.
    + apply (@braceFree_no_pair _ closeBrace Hb). reflexivity.
  - apply cleanText_without_placeholder.
  - reflexivity.
  - reflexivity.
Qed.

(* ------------------------------------------------------------------ *)
(** ** The body formatter *)

(** A body tagged [json] that parses is shown as the serializer prints the
    parsed value. *)
Lemma formatBody_parsed (body0 : jsstring) (parsed : json) :
  JSON_parse body0 = Some parsed ->
  formatBody (lit "json") body0 = JSON_stringify parsed.
Proof. intros E. unfold formatBody. rewrite jseqb_refl, E. reflexivity. Qed.

(** A body that does not parse is shown as it is, whatever its language. *)
Lemma formatBody_unparsable (language0 body0 : jsstring) :
  JSON_parse body0 = None -> formatBody language0 body0 = body0.
Proof.
  intros E. unfold formatBody. rewrite E.
  destruct (jseqb language0 (lit "json")); reflexivity.
Qed.

(** Parsing what is shown gives the parsed value back exactly when the
    runtime's serializer and parser agree on that value. *)
Lemma formatBody_round_trip (body0 : jsstring) (parsed : json) :
  JSON_parse body0 = Some parsed ->
  (JSON_parse (formatBody (lit "json") body0) = Some parsed
   <-> JSON_parse (JSON_stringify parsed) = Some parsed).
Proof. intros E. rewrite (formatBody_parsed E). reflexivity. Qed.

(** A body in another language is shown as it is. *)
Lemma formatBody_other (language0 body0 : jsstring) :
  language0 <> lit "json" -> formatBody language0 body0 = body0.
Proof.
  intros E. unfold formatBody. apply jseqb_neq in E. rewrite E. reflexivity.
Qed.

(* ------------------------------------------------------------------ *)
(** ** The checks at the boundary *)







(* ------------------------------------------------------------------ *)
(** ** Escaping *)

Lemma literalMatch_rep (pat rep t : jsstring) (n : nat) (rep' : jsstring) :
  literalMatch pat rep t = Some (n, rep') -> rep' = rep.
Proof.
  unfold literalMatch. destruct pat; [discriminate|].
  destruct (startsWith _ t); intros E; inversion E; reflexivity.
Qed.

Lemma literalMatch_one_None (c : N) (rep : jsstring) (x : N) (r : jsstring) :
  literalMatch [c] rep (x :: r) = None -> x <> c.
Proof.
  unfold literalMatch. simpl. rewrite N.eqb_sym.
  destruct (N.eqb_spec x c); [discriminate | auto].
Qed.

(** Replacing every [c] leaves no [c], unless the replacement brings one. *)
Lemma replaceLiteral_removes (c : N) (rep s : jsstring) :
  Forall (fun x => x <> c) rep ->
  Forall (fun x => x <> c) (replaceLiteral [c] rep s).
Proof.
  intros Hrep. unfold replaceLiteral.
  apply replaceAll_Forall with (P := fun _ => True).
  - intros t n rep' E _. apply literalMatch_rep in E. subst rep'. exact Hrep.
  - intros x r _ E. eapply literalMatch_one_None; eassumption.
  - apply Forall_forall. intros; exact I.
Qed.

(** What neither the text nor the replacement holds is not in the result. *)
Lemma replaceLiteral_keeps (Q : N -> Prop) (pat rep s : jsstring) :
  Forall Q rep -> Forall Q s -> Forall Q (replaceLiteral pat rep s).
Proof.
  intros Hrep Hs. unfold replaceLiteral.
  apply replaceAll_Forall with (P := Q).
  - intros t n rep' E _. apply literalMatch_rep in E. subst rep'. exact Hrep.
  - auto.
  - exact Hs.
Qed.

(** A pattern whose first unit is not in the text changes nothing. *)
Lemma replaceLiteral_id (c : N) (pat rep s : jsstring) :
  Forall (fun x => x <> c) s -> replaceLiteral (c :: pat) rep s = s.
Proof.
  intros Hs. apply replaceAll_id. intros a t E. subst s.
  apply Forall_app in Hs. destruct Hs as [_ Ht].
  unfold literalMatch. destruct t as [|x t]; [reflexivity|].
  cbn [startsWith]. apply Forall_inv in Ht.
  destruct (N.eqb_spec c x); [congruence | reflexivity].
Qed.

Ltac units :=
  repeat constructor; try discriminate; try (split; discriminate).

(** X1.  Whatever the text, [escapeHtml] leaves no double quote, no apostrophe
    and no line feed in it; and no angle bracket either when the text has
    neither a line feed nor a backslash (the two patterns that are replaced by
    a line-break tag). *)
Theorem escapeHtml_no_markup (text : jsstring) :
  Forall (fun c => c <> doubleQuote /\ c <> apostrophe /\ c <> lineFeed)
    (escapeHtml text)
  /\ (Forall (fun c => c <> lineFeed /\ c <> backslash) text ->
      Forall (fun c => c <> lessThan /\ c <> greaterThan) (escapeHtml text)).
Proof.
  unfold escapeHtml.
  set (s1 := replaceLiteral (lit "&") (lit "&amp;") text).
  set (s2 := replaceLiteral (lit "<") (lit "&lt;") s1).
  set (s3 := replaceLiteral (lit ">") (lit "&gt;") s2).
  set (s4 := replaceLiteral [doubleQuote] (lit "&quot;") s3).
  set (s5 := replaceLiteral (lit "'") (lit "&#039;") s4).
  set (s6 := replaceLiteral [lineFeed] (lit "<br>") s5).
  split.
  - assert (H4 : Forall (fun c => c <> doubleQuote) s4)
      by (apply replaceLiteral_removes; units).
    assert (H5 : Forall (fun c => c <> doubleQuote /\ c <> apostrophe) s5).
    { apply Forall_and.
      - apply replaceLiteral_keeps; [units | exact H4].
      - apply (@replaceLiteral_removes apostrophe); units. }
    assert (H6 : Forall (fun c => c <> doubleQuote /\ c <> apostrophe
                                  /\ c <> lineFeed) s6).
    { apply Forall_and; [|apply Forall_and].
      - apply replaceLiteral_keeps; [units|].
        eapply Forall_impl; [|exact H5]. intros c H; exact (proj1 H).
      - apply replaceLiteral_keeps; [units|].
        eapply Forall_impl; [|exact H5]. intros c H; exact (proj2 H).
      - apply replaceLiteral_removes; units. }
    apply replaceLiteral_keeps; [units | exact H6].
  - intros Hplain.
    assert (K : forall pat rep s,
               Forall (fun c => c <> lineFeed /\ c <> backslash) rep ->
               Forall (fun c => c <> lineFeed /\ c <> backslash) s ->
               Forall (fun c => c <> lineFeed /\ c <> backslash)
                 (replaceLiteral pat rep s))
      by (intros; apply replaceLiteral_keeps; assumption).
    assert (P5 : Forall (fun c => c <> lineFeed /\ c <> backslash) s5)
      by (do 5 (apply K; [units|]); exact Hplain).
    assert (E6 : s6 = s5).
    { apply replaceLiteral_id. eapply Forall_impl; [|exact P5].
      intros c H; exact (proj1 H). }
    change (lit "\n") with [backslash; 110%N].
    rewrite replaceLiteral_id.
    2:{ rewrite E6. eapply Forall_impl; [|exact P5].
        intros c H; exact (proj2 H). }
    rewrite E6.
    assert (H2 : Forall (fun c => c <> lessThan) s2)
      by (apply (@replaceLiteral_removes lessThan); units).
    assert (H3 : Forall (fun c => c <> lessThan /\ c <> greaterThan) s3).
    { apply Forall_and.
      - apply replaceLiteral_keeps; [units | exact H2].
      - apply (@replaceLiteral_removes greaterThan); units. }
    do 2 (apply replaceLiteral_keeps; [units|]). exact H3.
Qed.

(** X2.  A text with none of the units [escapeHtml] looks for comes back as it
    is. *)
Theorem escapeHtml_plain_text (text : jsstring) :
  Forall (fun c => isMarkup c = false) text -> escapeHtml text = text.
Proof.
  intros Hp. unfold escapeHtml.
  assert (Hc : forall c, isMarkup c = true ->
                         Forall (fun x => x <> c) text).
  { intros c Hc. eapply Forall_impl; [|exact Hp].
    intros x Hx ->. congruence. }
  change (lit "&") with [ampersand]. change (lit "<") with [lessThan].
  change (lit ">") with [greaterThan]. change (lit "'") with [apostrophe].
  change (lit "\n") with [backslash; 110%N].
  rewrite (@replaceLiteral_id ampersand [] (lit "&amp;") text)
    by (apply Hc; reflexivity).
  rewrite (@replaceLiteral_id lessThan [] (lit "&lt;") text)
    by (apply Hc; reflexivity).
  rewrite (@replaceLiteral_id greaterThan [] (lit "&gt;") text)
    by (apply Hc; reflexivity).
  rewrite (@replaceLiteral_id doubleQuote [] (lit "&quot;") text)
    by (apply Hc; reflexivity).
  rewrite (@replaceLiteral_id apostrophe [] (lit "&#039;") text)
    by (apply Hc; reflexivity).
  rewrite (@replaceLiteral_id lineFeed [] (lit "<br>") text)
    by (apply Hc; reflexivity).
  apply replaceLiteral_id. apply Hc. reflexivity.
Qed.

(** ** The normalizer never adds text *)

Lemma replaceAll_length m :
  (forall t n rep, m t = Some (n, rep) ->
                   (List.length rep <= n <= List.length t)%nat) ->
  forall s k,
    (List.length (replaceAll m k s) + Nat.min k (List.length s)
     <= List.length s)%nat.
Proof.
  intros Hm. induction s as [|c s IH]; intros k; simpl.
  - lia.
  - destruct k as [|k].
    + destruct (m (c :: s)) as [[n rep]|] eqn:E.
      * specialize (Hm _ _ _ E). simpl in Hm. rewrite length_app.
        specialize (IH (pred n)). lia.
      * simpl. specialize (IH 0%nat). lia.
    + specialize (IH k). lia.
Qed.

(** X3.  [cleanPostmanVariables] never returns a longer text than it was
    given: every placeholder loses its four braces and nothing else changes
    length. *)
Theorem cleanText_not_longer (text : jsstring) :
  (List.length (cleanText text) <= List.length text)%nat.
Proof.
  unfold cleanText.
  pose proof (@replaceAll_length placeholderMatch) as H.
  specialize (H ltac:(
    intros t n rep E;
    destruct (placeholderMatch_Some _ E) as (_ & -> & rest & ->);
    unfold placeholder; rewrite !length_app; simpl; lia) text 0%nat).
  lia.
Qed.

(* ------------------------------------------------------------------ *)
(** ** What the table of contents lists *)

Lemma generateTocItem_links (item0 : Node) :
  forall parentPath,
    linkTexts (generateTocItem item0 parentPath)
    = List.map name (preorder item0).
Proof.
  induction item0 as [[nm desc it rq rs] IH] using Node_induction.
  intros parentPath. unfold children in IH; simpl item in IH.
  unfold linkTexts in *. cbn [generateTocItem preorder List.map name].
  cbn [byTag isTag String.eqb Ascii.eqb Bool.eqb app flat_map List.map
       textContent].
  rewrite !app_nil_r. f_equal.
  destruct it as [[|c subs]|]; try reflexivity.
  remember (c :: subs) as l eqn:El. clear El c subs.
  cbn [byTag isTag String.eqb Ascii.eqb Bool.eqb app flat_map].
  rewrite app_nil_r, flat_map_map. rewrite Forall_forall in IH.
  rewrite !flat_map_concat_map, !concat_map, !List.map_map. f_equal.
  apply map_ext_in. intros sub Hin.
  destruct (isFolder sub) eqn:Hf.
  - apply (IH sub Hin).
  - destruct sub as [sn sd [sl|] sq sr]; [discriminate|].
    cbn. rewrite app_nil_r. reflexivity.
Qed.

(** X4.  The table of contents has one link for every node of the collection,
    labelled with the node's name, parents before children and children in the
    order of the source. *)
Theorem toc_lists_every_node (folders0 : list Node) :
  flat_map linkTexts (generateTableOfContents folders0)
  = List.map name (flat_map preorder folders0).
Proof.
  unfold generateTableOfContents.
  rewrite flat_map_map, !flat_map_concat_map, concat_map, List.map_map.
  f_equal. apply map_ext. intros folder. apply generateTocItem_links.
Qed.

(* ------------------------------------------------------------------ *)
(** ** Identifiers are fragment-safe *)

Lemma join_Forall (Q : N -> Prop) (sep : jsstring) (parts : list jsstring) :
  Forall Q sep -> Forall (Forall Q) parts -> Forall Q (join sep parts).
Proof.
  intros Hsep Hp. induction Hp as [|p ps Hp Hps IH]; [constructor|].
  destruct ps as [|q ps]; [exact Hp|].
  change (join sep (p :: q :: ps)) with (p ++ sep ++ join sep (q :: ps)).
  apply Forall_app; split; [exact Hp|]. apply Forall_app; split; assumption.
Qed.

Section SafeIdentifiers.

Hypothesis lower_no_upper :
  forall s, Forall (fun c => isUpper c = false) (toLowerCase s).

Lemma getFolderId_safe (folderPath : jsstring) :
  safeIdentifier (getFolderId (inl folderPath)).
Proof using lower_no_upper.
  split.
  - unfold getFolderId. apply Forall_app. split.
    + apply Forall_forall. intros c Hc. vm_compute in Hc.
      repeat (destruct Hc as [<- | Hc]; [reflexivity|]). destruct Hc.
    + apply (slugify_shape lower_no_upper).
  - left. unfold getFolderId. apply startsWith_app.
Qed.

Lemma getEndpointId_safe (segments : list jsstring) (endpointName : jsstring) :
  safeIdentifier (getEndpointId (PathArray segments) endpointName).
Proof using lower_no_upper.
  split.
  - unfold getEndpointId. apply Forall_app. split.
    + apply Forall_forall. intros c Hc. vm_compute in Hc.
      repeat (destruct Hc as [<- | Hc]; [reflexivity|]). destruct Hc.
    + apply Forall_app. split.
      * apply join_Forall; [repeat constructor|].
        apply Forall_forall. intros p Hp. apply in_map_iff in Hp.
        destruct Hp as (q & <- & _). apply (slugify_shape lower_no_upper).
      * apply Forall_app. split; [repeat constructor|].
        apply (slugify_shape lower_no_upper).
  - right. unfold getEndpointId. apply startsWith_app.
Qed.

Lemma generateFolderContent_safe (translations : Translations)
    (item0 : Node) :
  forall parentPath headerLevel,
    Forall safeIdentifier
      (attributes "id"
         (generateFolderContent translations item0 parentPath headerLevel)).
Proof using lower_no_upper.
  induction item0 as [[nm desc it rq rs] IH] using Node_induction.
  intros parentPath headerLevel. rewrite generateFolderContent_ids.
  constructor; [apply getFolderId_safe|].
  rewrite Forall_forall in IH. apply Forall_forall. intros id Hid.
  apply in_flat_map in Hid. destruct Hid as (sub & Hsub & Hid).
  destruct (isFolder sub).
  - pose proof (IH sub Hsub (parentPath ++ [nm])
                  (Z.min (headerLevel + 1) 6)) as H.
    rewrite Forall_forall in H. apply H. exact Hid.
  - destruct Hid as [<- | []]. apply getEndpointId_safe.
Qed.

(** X5.  Every identifier of the content starts with [folder-] or [endpoint-]
    and holds lower-case word characters and hyphens only, whatever the names
    of the collection are; it can be used as a URL fragment as it is. *)
Theorem identifiers_fragment_safe (translations : Translations)
    (folders0 : list Node) :
  Forall safeIdentifier
    (sectionIds (generateFoldersContent translations folders0)).
Proof using lower_no_upper.
  unfold sectionIds, generateFoldersContent. rewrite flat_map_map.
  apply Forall_forall. intros id Hid. apply in_flat_map in Hid.
  destruct Hid as (folder & _ & Hid).
  pose proof (generateFolderContent_safe translations folder [] 2) as H.
  rewrite Forall_forall in H. apply H. exact Hid.
Qed.

End SafeIdentifiers.

(* ------------------------------------------------------------------ *)
(** ** The page as a whole *)





(* ------------------------------------------------------------------ *)
(** ** Headers *)


(* ------------------------------------------------------------------ *)
(** ** The arguments of the command line *)

Lemma split_at_separator (sep : N) (a b : jsstring) :
  Forall (fun c => c <> sep) a ->
  split sep (a ++ sep :: b) = a :: split sep b.
Proof.
  intros Ha. induction Ha as [|c a Hc Ha IH]; simpl.
  - rewrite N.eqb_refl. reflexivity.
  - destruct (N.eqb_spec c sep); [contradiction|]. rewrite IH. reflexivity.
Qed.

Lemma split_without_separator (sep : N) (a : jsstring) :
  Forall (fun c => c <> sep) a -> split sep a = [a].
Proof.
  intros Ha. induction Ha as [|c a Hc Ha IH]; simpl; [reflexivity|].
  destruct (N.eqb_spec c sep); [contradiction|]. rewrite IH. reflexivity.
Qed.

(** X8.  The value of an option is what stands between the first equals sign
    and the second: a value without equals sign is taken whole, a value with
    one is cut there. *)
Theorem argumentValue_cut (flag v : jsstring) :
  Forall (fun c => c <> equalsSign) flag ->
  Forall (fun c => c <> equalsSign) v ->
  argumentValue (flag ++ [equalsSign] ++ v) = v
  /\ forall rest,
       argumentValue (flag ++ [equalsSign] ++ v ++ [equalsSign] ++ rest) = v.
Proof.
  intros Hf Hv. unfold argumentValue. split.
  - cbn [app]. rewrite (split_at_separator _ Hf).
    rewrite (split_without_separator Hv). reflexivity.
  - intros rest. cbn [app]. rewrite (split_at_separator _ Hf).
    rewrite (split_at_separator _ Hv). reflexivity.
Qed.

Lemma parseArguments_app (xs ys : list jsstring) :
  forall acc,
    parseArguments (xs ++ ys) acc
    = match parseArguments xs acc with
      | inl arg => inl arg
      | inr acc' => parseArguments ys acc'
      end.
Proof.
  induction xs as [|x xs IH]; intros acc; [reflexivity|].
  cbn [app parseArguments].
  destruct (startsWith (lit "--lang=") x); [apply IH|].
  destruct (startsWith (lit "--output=") x); [apply IH|].
  destruct (startsWith (lit "--logo=") x); [apply IH|].
  destruct (startsWith (lit "--divider=") x); [apply IH | reflexivity].
Qed.

Lemma parseArguments_known (xs : list jsstring) :
  forallb isKnownArgument xs = true ->
  forall acc, exists acc', parseArguments xs acc = inr acc'.
Proof.
  induction xs as [|x xs IH]; intros Hk acc; [eexists; reflexivity|].
  cbn [forallb] in Hk. apply andb_true_iff in Hk. destruct Hk as [Hx Hk].
  unfold isKnownArgument in Hx. cbn [parseArguments].
  destruct (startsWith (lit "--lang=") x); [apply IH; exact Hk|].
  destruct (startsWith (lit "--output=") x); [apply IH; exact Hk|].
  destruct (startsWith (lit "--logo=") x); [apply IH; exact Hk|].
  destruct (startsWith (lit "--divider=") x); [apply IH; exact Hk|].
  discriminate.
Qed.

(** X9.  The options are read from left to right, each one replacing what an
    earlier one of its kind had set: the language is the one of the last
    [--lang=].  An argument that is none of the four options stops the command
    line with exit code 1 and names that argument, whatever stands around it
    and whatever the files hold. *)
Theorem arguments_left_to_right :
  (forall known v acc,
      forallb isKnownArgument known = true ->
      exists acc',
        parseArguments (known ++ [lit "--lang=" ++ v]) acc = inr acc'
        /\ cliLanguage acc' = argumentValue (lit "--lang=" ++ v))
  /\ (forall fs node script inputFile known unknown rest,
        forallb isKnownArgument known = true ->
        isKnownArgument unknown = false ->
        cli fs (node :: script :: inputFile :: known ++ unknown :: rest)
        = Exit1 [lit "Unknown argument: " ++ unknown;
                 lit "Use --help for usage information"]).
Proof.
  split.
  - intros known v acc Hk. rewrite parseArguments_app.
    destruct (parseArguments_known known Hk acc) as [acc1 ->].
    cbn [parseArguments]. rewrite startsWith_app.
    eexists. split; reflexivity.
  - intros fs node script inputFile known unknown rest Hk Hu.
    unfold cli. rewrite parseArguments_app.
    destruct (parseArguments_known known Hk initialCliArgs) as [acc1 ->].
    cbn [parseArguments]. unfold isKnownArgument in Hu.
    apply orb_false_iff in Hu. destruct Hu as [Hu H4].
    apply orb_false_iff in Hu. destruct Hu as [Hu H3].
    apply orb_false_iff in Hu. destruct Hu as [H1 H2].
    rewrite H1, H2, H3, H4. reflexivity.
Qed.

(* ------------------------------------------------------------------ *)
(** ** What a conversion does to the files *)





(** X11.  With options that pass the checks and a translation table that
    loads, a missing input file and an input file that does not parse are each
    reported by an error naming the file, and nothing is written. *)
Theorem input_file_errors (fs : FileSystem) (inputPath : jsstring)
    (o : Options) (translations : Translations) :
  outputFileAccepted o && languageAccepted o && logoAccepted o
  && dividerAccepted o = true ->
  let languageName := stringOf (withDefault (language o) (Str (lit "en"))) in
  snd (loadTranslations fs languageName) = inr translations ->
  (fs inputPath = None ->
   snd (collectionToHTML fs (Str inputPath) (OptionsObject o))
   = inl (Error (lit "Input file '" ++ inputPath
                 ++ lit "' does not exist.")))
  /\ (forall text m,
        fs inputPath = Some text -> parseCollection text = inl m ->
        snd (collectionToHTML fs (Str inputPath) (OptionsObject o))
        = inl (Error (lit "Input file '" ++ inputPath
                      ++ lit "' is not valid JSON: " ++ m))).
Proof.
  unfold outputFileAccepted, languageAccepted, logoAccepted, dividerAccepted,
    collectionToHTML.
  cbn [isPrimitive isString negb]. rewrite !andb_true_iff.
  intros [[[Ho Hl] Hg] Hd]. cbv zeta. rewrite Ho, Hl. cbn [negb].
  replace (negb (isNull (withDefault (logo o) Null))
           && negb (isString (withDefault (logo o) Null))) with false
    by (rewrite <- negb_orb, Hg; reflexivity).
  replace (negb (isNull (withDefault (divider o) Null))
           && negb (arrayIncludes validDividers (withDefault (divider o) Null)))
    with false by (rewrite <- negb_orb, Hd; reflexivity).
  cbn [stringOf].
  destruct (loadTranslations fs
              (stringOf (withDefault (language o) (Str (lit "en")))))
    as [warnings loaded].
  cbn [snd]. intros ->. split.
  - intros Hin. unfold existsSync. rewrite Hin. reflexivity.
  - intros text m Hin Hp. unfold existsSync, readFileSync. rewrite Hin.
    cbn [negb]. rewrite Hp. reflexivity.
Qed.

(** X12.  The English table stands in for a translation file that is missing,
    not for one that is there and does not parse: then the call throws the
    parser's error, prints no warning and does not look at the input. *)
Theorem corrupt_translation_not_replaced (fs : FileSystem)
    (inputFile o languageName text m : _) :
  outputFileAccepted o && logoAccepted o && dividerAccepted o = true ->
  language o = Str languageName ->
  fs (translationFile languageName) = Some text ->
  parseTranslations text = inl m ->
  collectionToHTML fs (Str inputFile) (OptionsObject o)
  = ([], inl (SyntaxError m)).
Proof.
  unfold outputFileAccepted, logoAccepted, dividerAccepted, collectionToHTML.
  cbn [isPrimitive isString negb]. rewrite !andb_true_iff.
  intros [[Ho Hg] Hd] Hl Hf Hp. rewrite Ho, Hl.
  cbn [withDefault isString negb stringOf].
  replace (negb (isNull (withDefault (logo o) Null))
           && negb (isString (withDefault (logo o) Null))) with false
    by (rewrite <- negb_orb, Hg; reflexivity).
  replace (negb (isNull (withDefault (divider o) Null))
           && negb (arrayIncludes validDividers (withDefault (divider o) Null)))
    with false by (rewrite <- negb_orb, Hd; reflexivity).
  unfold loadTranslations, existsSync, readFileSync, jsonParseTranslations.
  rewrite Hf. cbn [negb]. rewrite Hp. reflexivity.
Qed.

(* ------------------------------------------------------------------ *)
(** ** The single-file script *)


(* ------------------------------------------------------------------ *)
(** ** The first generation and the recursive walker *)

Lemma filter_all (A : Type) (f : A -> bool) (l : list A) :
  (forall x, In x l -> f x = true) -> filter f l = l.
Proof.
  induction l as [|a l IH]; intros Hall; [reflexivity|].
  cbn [filter]. rewrite (Hall a (or_introl eq_refl)). f_equal.
  apply IH. intros x Hx. apply Hall. right. exact Hx.
Qed.

Lemma existsb_none (A : Type) (f : A -> bool) (l : list A) :
  existsb f l = false -> forall x, In x l -> f x = false.
Proof.
  induction l as [|a l IH]; intros E x Hx; [destruct Hx|].
  cbn [existsb] in E. apply orb_false_iff in E. destruct E as [Ea El].
  destruct Hx as [<-|Hx]; [exact Ea | exact (IH El x Hx)].
Qed.

(** X14.  On a collection with nothing below the sub-folders, the table of
    contents written out for two levels is the one the recursive walker
    builds: same entries, same link targets. *)
Theorem first_generation_toc_agrees (folders0 : list Node) :
  twoLevels folders0 ->
  generateTableOfContentsV1 folders0 = generateTableOfContents folders0.
Proof.
  intros Htwo. unfold generateTableOfContentsV1, generateTableOfContents.
  apply map_ext_in. intros folder Hin.
  specialize (Htwo folder).
  destruct folder as [n d it rq rs]. unfold children in Htwo.
  cbn [generateTocItem name item app] in *. unfold tocLink, getFolderIdV1.
  cbn [join]. cbn [getFolderId].
  destruct it as [[|c subs]|]; [reflexivity| |reflexivity].
  cbn [item]. do 3 f_equal. unfold hasNestedFolders. cbn [item].
  remember (c :: subs) as l eqn:El. clear El c subs.
  assert (Hnested :
    map (fun subFolder =>
           if isFolder subFolder then
             Elem (T "li") []
               (Elem (T "a")
                  [("href"%string,
                    lit "#" ++ lit "folder-"
                      ++ slugify (n ++ lit "-" ++ name subFolder))]
                  [Text (name subFolder)]
                :: match item subFolder with
                   | Some ((_ :: _) as endpoints) =>
                       [Elem (T "ul") []
                          (map (fun endpoint =>
                                  Elem (T "li") []
                                    [Elem (T "a")
                                       [("href"%string,
                                         lit "#"
                                           ++ getEndpointIdV1 n
                                                (Some (name subFolder))
                                                (name endpoint))]
                                       [Text (name endpoint)]])
                             (filter (fun endpoint => negb (isFolder endpoint))
                                endpoints))]
                   | _ => []
                   end)
           else
             Elem (T "li") []
               [Elem (T "a")
                  [("href"%string,
                    lit "#" ++ getEndpointIdV1 n None (name subFolder))]
                  [Text (name subFolder)]]) l
    = map (fun subItem =>
             if isFolder subItem then generateTocItem subItem [n]
             else
               Elem (T "li") []
                 [Elem (T "a")
                    [("href"%string,
                      lit "#" ++ getEndpointId (PathArray [n]) (name subItem))]
                    [Text (name subItem)]]) l).
  { apply map_ext_in. intros sub Hsub.
    destruct (isFolder sub) eqn:Hfolder; [|reflexivity].
    destruct (Htwo sub Hin Hsub Hfolder) as [Hname Hleaves].
    destruct sub as [sn sd sit srq srs]. unfold children in Hleaves.
    cbn [generateTocItem name item app] in *. cbn [join]. cbn [getFolderId].
    do 2 f_equal.
    destruct sit as [[|e es]|]; [reflexivity| |reflexivity].
    remember (e :: es) as endpoints eqn:Ee. rewrite Ee at 1. subst endpoints.
    remember (e :: es) as endpoints eqn:Ee. clear Ee e es.
    do 2 f_equal.
    rewrite filter_all
      by (intros x Hx; rewrite (Hleaves x Hx); reflexivity).
    apply map_ext_in. intros endpoint He. rewrite (Hleaves endpoint He).
    do 5 f_equal. unfold getEndpointIdV1, getEndpointId.
    destruct sn as [|u sn]; [contradiction Hname; reflexivity|].
    cbn [map join]. rewrite <- !app_assoc. reflexivity. }
  destruct (existsb isFolder l) eqn:Hany.
  - f_equal. exact Hnested.
  - assert (Hflat : forall x, In x l -> isFolder x = false)
      by (apply existsb_none; exact Hany).
    f_equal. apply map_ext_in. intros sub Hsub.
    rewrite (Hflat sub Hsub). reflexivity.
Qed.

(** ** The first generation: identifiers and links *)














(** X17.  The first [escapeHtml] had the five replacements only.  Whatever the
    text, its result has no angle bracket, no double quote and no apostrophe;
    and the later [escapeHtml] gives the same result on a text with no line
    feed and no backslash. *)
Theorem escapeHtmlV1_complete (text : jsstring) :
  Forall (fun c => (c <> lessThan /\ c <> greaterThan)
                   /\ c <> doubleQuote /\ c <> apostrophe)
    (escapeHtmlV1 text)
  /\ (Forall (fun c => c <> lineFeed /\ c <> backslash) text ->
      escapeHtml text = escapeHtmlV1 text).
Proof.
  unfold escapeHtml, escapeHtmlV1.
  set (s1 := replaceLiteral (lit "&") (lit "&amp;") text).
  set (s2 := replaceLiteral (lit "<") (lit "&lt;") s1).
  set (s3 := replaceLiteral (lit ">") (lit "&gt;") s2).
  set (s4 := replaceLiteral [doubleQuote] (lit "&quot;") s3).
  set (s5 := replaceLiteral (lit "'") (lit "&#039;") s4).
  split.
  - assert (H2 : Forall (fun c => c <> lessThan) s2)
      by (apply (@replaceLiteral_removes lessThan); units).
    assert (H3 : Forall (fun c => c <> lessThan /\ c <> greaterThan) s3).
    { apply Forall_and.
      - apply replaceLiteral_keeps; [units | exact H2].
      - apply (@replaceLiteral_removes greaterThan); units. }
    assert (H4 : Forall (fun c => c <> doubleQuote) s4)
      by (apply replaceLiteral_removes; units).
    assert (H5 : Forall (fun c => c <> doubleQuote /\ c <> apostrophe) s5).
    { apply Forall_and.
      - apply replaceLiteral_keeps; [units | exact H4].
      - apply (@replaceLiteral_removes apostrophe); units. }
    apply Forall_and; [|exact H5].
    do 2 (apply replaceLiteral_keeps; [units|]). exact H3.
  - intros Hplain.
    assert (P5 : Forall (fun c => c <> lineFeed /\ c <> backslash) s5)
      by (do 5 (apply replaceLiteral_keeps; [units|]); exact Hplain).
    rewrite (@replaceLiteral_id lineFeed [] (lit "<br>") s5)
      by (eapply Forall_impl; [|exact P5]; intros c H; exact (proj1 H)).
    change (lit "\n") with [backslash; 110%N].
    apply replaceLiteral_id. eapply Forall_impl; [|exact P5].
    intros c H; exact (proj2 H).
Qed.

(* ------------------------------------------------------------------ *)
(** ** The command line: the divider option, and what a run leaves *)

Lemma parseArgumentsV1_divider (args : list jsstring) :
  forall acc r, parseArgumentsV1 args acc = inr r ->
                cliDivider r = cliDivider acc.
Proof.
  induction args as [|arg rest IH]; intros acc r E; cbn [parseArgumentsV1] in E.
  - injection E as <-. reflexivity.
  - destruct (startsWith (lit "--lang=") arg);
      [exact (IH _ _ E)|].
    destruct (startsWith (lit "--output=") arg); [exact (IH _ _ E)|].
    destruct (startsWith (lit "--logo=") arg); [exact (IH _ _ E)|].
    discriminate.
Qed.

Lemma parseArguments_without_divider (args : list jsstring) :
  Forall (fun arg => startsWith (lit "--divider=") arg = false) args ->
  forall acc, parseArguments args acc = parseArgumentsV1 args acc.
Proof.
  induction 1 as [|arg rest Harg _ IH]; intros acc; [reflexivity|].
  cbn [parseArguments parseArgumentsV1]. rewrite Harg, !IH. reflexivity.
Qed.

Lemma collectionToHTML_divider_default (fs : FileSystem) (inputFile : jsvalue)
    (a b c : jsvalue) :
  collectionToHTML fs inputFile (OptionsObject (mkOptions a b c Undefined))
  = collectionToHTML fs inputFile (OptionsObject (mkOptions a b c Null)).
Proof. reflexivity. Qed.

(** X18.  The divider option is all that the second [cli.js] adds: on
    arguments that do not use it, from the input file on, it prints, writes
    and exits as the first one. *)
Theorem cli_divider_only_difference (fs : FileSystem)
    (node script inputFile : jsstring) (rest : list jsstring) :
  Forall (fun arg => startsWith (lit "--divider=") arg = false) rest ->
  cli fs (node :: script :: inputFile :: rest)
  = cliV1 fs (node :: script :: inputFile :: rest).
Proof.
  intros Hrest. unfold cli, cliV1.
  rewrite (parseArguments_without_divider Hrest).
  destruct (parseArgumentsV1 rest initialCliArgs) as [arg|args] eqn:E;
    [reflexivity|].
  apply parseArgumentsV1_divider in E. cbn [initialCliArgs cliDivider] in E.
  rewrite E. cbn [truthy andb nullable].
  destruct (negb (existsb (jseqb (cliLanguage args)) supportedLanguages));
    [reflexivity|].
  destruct (if truthy (cliLogoPath args)
            then match readFileSync fs (interpolate (cliLogoPath args)) with
                 | inl e => inl e
                 | inr text => inr (Some text)
                 end
            else inr None) as [e|logo0]; [reflexivity|].
  rewrite collectionToHTML_divider_default. reflexivity.
Qed.


(* ------------------------------------------------------------------ *)
(** ** The pages of the scripts *)







(* ------------------------------------------------------------------ *)
(** ** The request body, from one generation to the next *)

Lemma cleanText_without_brace (text : jsstring) :
  Forall (fun c => c <> openBrace) text -> cleanText text = text.
Proof.
  intros Hno. apply cleanText_without_placeholder.
  intros (before & x & after & _ & E). subst text.
  apply Forall_app in Hno. destruct Hno as [_ Hno].
  unfold placeholder in Hno. apply Forall_app in Hno.
  destruct Hno as [Hno _]. apply Forall_app in Hno. destruct Hno as [Hno _].
  apply Forall_inv in Hno. apply Hno. reflexivity.
Qed.

(** X21.  A raw request body is written into the page unescaped by the
    recursive walker: the code block holds the body with its placeholders
    normalized, so a body without an opening brace is there as it is, markup
    included.  The first generation escaped it. *)
Theorem request_body_not_escaped (translations : Translations) (b : Body)
    (raw : jsstring) :
  mode b = Some (lit "raw") -> bodyRaw b = Some raw -> raw <> [] ->
  let codeBlocks (fragment : list html) :=
    List.map textContent (flat_map (byTag "code") fragment) in
  codeBlocks (requestBodySection translations (Some b)) = [cleanText raw]
  /\ (Forall (fun c => c <> openBrace) raw ->
      codeBlocks (requestBodySection translations (Some b)) = [raw])
  /\ codeBlocks (requestBodySectionV1 (Some b)) = [escapeHtmlV1 raw].
Proof.
  intros Hmode Hraw Hne codeBlocks. subst codeBlocks.
  assert (E : List.map textContent
                (flat_map (byTag "code")
                   (requestBodySection translations (Some b)))
              = [cleanText raw]).
  { unfold requestBodySection. rewrite Hmode, Hraw.
    cbn [optionIs]. rewrite jseqb_refl.
    destruct raw as [|c raw]; [contradiction Hne; reflexivity|].
    cbn [truthy andb orDefault]. remember (c :: raw) as text.
    cbn [flat_map byTag isTag String.eqb Ascii.eqb Bool.eqb app List.map
         textContent].
    rewrite app_nil_r. reflexivity. }
  split; [exact E|]. split.
  - intros Hplain. rewrite E, (cleanText_without_brace Hplain). reflexivity.
  - unfold requestBodySectionV1. rewrite Hmode, Hraw.
    cbn [optionIs]. rewrite jseqb_refl.
    destruct raw as [|c raw]; [contradiction Hne; reflexivity|].
    cbn [truthy andb orDefault]. remember (c :: raw) as text.
    cbn [flat_map byTag isTag String.eqb Ascii.eqb Bool.eqb app List.map
         textContent].
    rewrite app_nil_r. reflexivity.
Qed.

End Renderer.

(* ------------------------------------------------------------------ *)
(** ** The properties on sample inputs *)

Lemma asciiLower_no_upper (s : jsstring) :
  Forall (fun c => isUpper c = false) (asciiLower s).
Proof.
  unfold asciiLower. apply Forall_forall. intros c Hc.
  apply in_map_iff in Hc. destruct Hc as (d & <- & _).
  unfold isUpper, inRange.
  destruct ((65 <=? d)%N && (d <=? 90)%N) eqn:E; [|exact E].
  apply andb_true_iff in E. destruct E as [E1 E2].
  apply N.leb_le in E1. apply N.leb_le in E2.
  apply andb_false_iff. right. apply N.leb_gt. lia.
Qed.

Lemma isSlugChar_not_upper (c : N) : isSlugChar c = true -> isUpper c = false.
Proof.
  unfold isSlugChar, isLowerOrDigit, isHyphen, isUpper, inRange, hyphen.
  rewrite !orb_true_iff, !andb_true_iff, !N.leb_le, !N.eqb_eq. intros H.
  apply andb_false_iff. rewrite !N.leb_gt. lia.
Qed.

Lemma asciiLower_slug (s : jsstring) :
  Forall (fun c => isSlugChar c = true) s -> asciiLower s = s.
Proof.
  unfold asciiLower. intros H. induction H as [|c s Hc Hs IH]; [reflexivity|].
  simpl. rewrite (isSlugChar_not_upper _ Hc), IH. reflexivity.
Qed.

Lemma slugify_slug_idempotent_witness :
  Forall (fun c => isSlugChar c = true)
    (slugify asciiLower (lit "  Get -- User!  "))
  /\ (forall r, slugify asciiLower (lit "  Get -- User!  ") <> hyphen :: r)
  /\ (forall r, slugify asciiLower (lit "  Get -- User!  ") <> r ++ [hyphen])
  /\ slugify asciiLower (slugify asciiLower (lit "  Get -- User!  "))
     = slugify asciiLower (lit "  Get -- User!  ").
Proof.
  exact (slugify_slug_idempotent asciiLower asciiLower_no_upper
           asciiLower_slug (lit "  Get -- User!  ")).
Defined.

Example slugify_sample :
  slugify asciiLower (lit "  Get -- User!  ") = lit "get-user".
Proof. vm_compute. reflexivity. Qed.

(** Two endpoints of one folder under one name: the link target of the name
    has two sections, not one. *)
Lemma toc_content_not_one_to_one :
  ~ oneToOne
      (linkTargets (generateTableOfContents asciiLower sampleDuplicates))
      (sectionIds
         (generateFoldersContent asciiLower plainProse parseEmptyObject
            printEmptyObject legacyLabels sampleDuplicates)).
Proof.
  intros [_ H]. specialize (H (lit "endpoint-a-x")).
  assert (Hin : In (lit "endpoint-a-x")
                  (sectionIds
                     (generateFoldersContent asciiLower plainProse
                        parseEmptyObject printEmptyObject legacyLabels
                        sampleDuplicates))).
  { vm_compute. right. left. reflexivity. }
  apply H in Hin. vm_compute in Hin. discriminate.
Qed.

Lemma toc_content_lockstep_witness :
  oneToOne
    (linkTargets (generateTableOfContents asciiLower sampleUsers))
    (sectionIds
       (generateFoldersContent asciiLower plainProse parseEmptyObject
          printEmptyObject legacyLabels sampleUsers)).
Proof.
  apply (proj2 (toc_content_lockstep asciiLower plainProse parseEmptyObject
                  printEmptyObject legacyLabels sampleUsers)).
  vm_compute. repeat constructor; simpl; intuition discriminate.
Defined.

Example users_table_of_contents :
  linkTargets (generateTableOfContents asciiLower sampleUsers)
  = [lit "#folder-users"; lit "#endpoint-users-get-user"].
Proof. vm_compute. reflexivity. Qed.

(** The text of the table of contents, as the script concatenates it. *)
Example users_table_of_contents_text :
  flat_map render (generateTableOfContents asciiLower sampleUsers)
  = lit "<li><a href=" ++ [doubleQuote] ++ lit "#folder-users"
    ++ [doubleQuote] ++ lit ">Users</a><ul><li><a href=" ++ [doubleQuote]
    ++ lit "#endpoint-users-get-user" ++ [doubleQuote]
    ++ lit ">Get User</a></li></ul></li>".
Proof. vm_compute. reflexivity. Qed.

Example users_url_path_and_no_table :
  let fragment :=
    generateEndpointContent asciiLower plainProse parseEmptyObject
      printEmptyObject legacyLabels [lit "Users"] getUser in
  List.map textContent (byClass (lit "url-path") fragment) = [lit "/users/id"]
  /\ byTag "table" fragment = [].
Proof. vm_compute. split; reflexivity. Qed.

(** A placeholder followed by two closing braces: they stay. *)
Lemma cleanText_leaves_braces :
  isVariableName (lit "a")
  /\ lit "{{a}}}}" = [] ++ placeholder (lit "a") ++ lit "}}"
  /\ includes (lit "a") (cleanText (lit "{{a}}}}")) = true
  /\ includes (lit "}}") (cleanText (lit "{{a}}}}")) = true.
Proof.
  split; [|split; [|split]]; try (vm_compute; reflexivity).
  split; [discriminate|]. repeat constructor. discriminate.
Qed.

Lemma cleanPostmanVariables_spec_witness :
  includes (lit "id")
    (cleanText (lit "/users/" ++ placeholder (lit "id") ++ lit "/posts"))
  = true.
Proof.
  apply (proj1 cleanPostmanVariables_spec).
  split; [discriminate|]. repeat constructor; discriminate.
Defined.

Example eight_levels :
  flat_map sectionLevels
    (generateFoldersContent asciiLower plainProse parseEmptyObject
       printEmptyObject legacyLabels sampleDeep)
  = [2; 3; 4; 5; 6; 6; 6; 6]%Z.
Proof. vm_compute. reflexivity. Qed.


Lemma endpoint_without_request_witness :
  textContent
    (generateEndpointContent asciiLower plainProse parseEmptyObject
       printEmptyObject legacyLabels [lit "A"] (endpointNamed "x"))
  = lit "x" ++ lit "No request information available.".
Proof.
  apply (endpoint_without_request asciiLower plainProse parseEmptyObject
           printEmptyObject legacyLabels [lit "A"] (endpointNamed "x")).
  reflexivity.
Defined.

(** A parameter without a name is not named [token] or [key], and has no
    row. *)
Lemma query_rows_unnamed_parameter :
  flat_map tableRows
    (queryParametersSection asciiLower legacyLabels sampleParams)
  <> List.map queryParamRow
       (List.filter (fun param => negb (isAuthParam asciiLower param))
          sampleParams).
Proof. vm_compute. discriminate. Qed.

Lemma query_parameter_rows_witness :
  flat_map tableRows
    (queryParametersSection asciiLower legacyLabels sampleParams)
  = [queryParamRow (mkParam (Some (lit "page")) (Some (lit "{{page}}"))
                      None None)].
Proof.
  exact (proj1 (proj2 (query_parameter_rows asciiLower plainProse
                         parseEmptyObject printEmptyObject legacyLabels
                         [lit "A"] sampleSearch eq_refl))).
Defined.



(** A top-level request with a description: its section holds the
    description next to the heading. *)
Lemma top_level_section_not_heading_only :
  item samplePing = None
  /\ ~ headingOnly
         (generateFolderContent asciiLower plainProse parseEmptyObject
            printEmptyObject legacyLabels samplePing [] 2).
Proof. split; [reflexivity|]. vm_compute. intros H; exact H. Qed.

Lemma top_level_endpoint_as_folder_witness :
  generateFolderContent asciiLower plainProse parseEmptyObject
    printEmptyObject legacyLabels samplePing [] 2
  = Elem (T "section") [("id"%string, lit "folder-ping")]
      [Elem (H 2) [] [Text (lit "Ping")];
       Elem (T "div") [("class"%string, lit "folder-description")]
         [Text (lit "Health check")]].
Proof.
  exact (proj1 (proj2 (proj2 (top_level_endpoint_as_folder asciiLower
                                plainProse parseEmptyObject printEmptyObject
                                legacyLabels [samplePing] samplePing
                                (or_introl eq_refl) eq_refl)))).
Defined.

(* ------------------------------------------------------------------ *)
(** ** More sample inputs: escaping, identifiers, arguments, files *)

Lemma escapeHtml_no_markup_witness :
  Forall (fun c => c <> lessThan /\ c <> greaterThan)
    (escapeHtml (lit "<b>Tom & Jerry</b>")).
Proof.
  apply (proj2 (escapeHtml_no_markup (lit "<b>Tom & Jerry</b>"))).
  repeat constructor; discriminate.
Defined.

Example escapeHtml_sample :
  escapeHtml (lit "<b>Tom & Jerry</b>")
  = lit "&lt;b&gt;Tom &amp; Jerry&lt;/b&gt;".
Proof. vm_compute. reflexivity. Qed.

Lemma escapeHtml_plain_text_witness :
  escapeHtml (lit "GET /users") = lit "GET /users".
Proof.
  apply escapeHtml_plain_text. repeat constructor.
Defined.

Lemma escapeHtmlV1_complete_witness :
  escapeHtml (lit "<b>Tom & Jerry</b>")
  = escapeHtmlV1 (lit "<b>Tom & Jerry</b>").
Proof.
  apply (proj2 (escapeHtmlV1_complete (lit "<b>Tom & Jerry</b>"))).
  repeat constructor; discriminate.
Defined.

(** A line feed is where the two generations part: the later one writes a
    line-break tag. *)
Example escapeHtml_line_feed :
  escapeHtmlV1 (lit "a" ++ [lineFeed] ++ lit "b")
  = lit "a" ++ [lineFeed] ++ lit "b"
  /\ escapeHtml (lit "a" ++ [lineFeed] ++ lit "b") = lit "a<br>b".
Proof. vm_compute. split; reflexivity. Qed.

Lemma identifiers_fragment_safe_witness :
  Forall safeIdentifier
    (sectionIds
       (generateFoldersContent asciiLower plainProse parseEmptyObject
          printEmptyObject legacyLabels sampleUsers)).
Proof.
  exact (identifiers_fragment_safe asciiLower plainProse parseEmptyObject
           printEmptyObject asciiLower_no_upper legacyLabels sampleUsers).
Defined.

Lemma argumentValue_cut_witness :
  argumentValue (lit "--output" ++ [equalsSign] ++ lit "doc.html")
  = lit "doc.html".
Proof.
  refine (proj1 (@argumentValue_cut (lit "--output") (lit "doc.html") _ _));
    repeat constructor; discriminate.
Defined.

(** What stands after a second [=] is lost. *)
Example argumentValue_second_separator :
  argumentValue (lit "--output=a=b.html") = lit "a".
Proof. vm_compute. reflexivity. Qed.

Lemma arguments_left_to_right_witness :
  cli asciiLower plainProse parseEmptyObject printEmptyObject
    (lit "01/01/2025") [] [] (fun _ => []) sampleTranslationFile
    (fun _ => inr legacyLabels) (fun _ => inr sampleCollection)
    (fun _ => []) sampleFiles
    [lit "node"; lit "cli.js"; lit "collection.json"; lit "--lang=fr";
     lit "--verbose"]
  = Exit1 [lit "Unknown argument: " ++ lit "--verbose";
           lit "Use --help for usage information"].
Proof.
  exact (proj2 (arguments_left_to_right asciiLower plainProse parseEmptyObject printEmptyObject
    (lit "01/01/2025") [] [] (fun _ => []) sampleTranslationFile
    (fun _ => inr legacyLabels) (fun _ => inr sampleCollection)
    (fun _ => []))
           sampleFiles (lit "node") (lit "cli.js") (lit "collection.json")
           [lit "--lang=fr"] (lit "--verbose") [] eq_refl eq_refl).
Defined.


Lemma input_file_errors_witness :
  snd (collectionToHTML asciiLower plainProse parseEmptyObject printEmptyObject
    (lit "01/01/2025") [] [] (fun _ => []) sampleTranslationFile
    (fun _ => inr legacyLabels) (fun _ => inr sampleCollection)
    (fun _ => []) sampleFiles (Str (lit "missing.json"))
         (OptionsObject germanOptions))
  = inl (Error (lit "Input file '" ++ lit "missing.json"
                ++ lit "' does not exist.")).
Proof.
  exact (proj1 (@input_file_errors asciiLower plainProse unit
                  parseEmptyObject printEmptyObject (lit "01/01/2025") [] []
                  (fun _ => []) sampleTranslationFile
                  (fun _ => inr legacyLabels) (fun _ => inr sampleCollection)
                  (fun _ => []) sampleFiles (lit "missing.json")
                  germanOptions legacyLabels eq_refl eq_refl) eq_refl).
Defined.

Lemma corrupt_translation_not_replaced_witness :
  collectionToHTML asciiLower plainProse parseEmptyObject printEmptyObject
    (lit "01/01/2025") [] [] (fun _ => []) sampleTranslationFile
    (fun _ => inl (lit "Unexpected end of JSON input"))
    (fun _ => inr sampleCollection) (fun _ => []) sampleFiles
    (Str (lit "collection.json")) (OptionsObject englishOptions)
  = ([], inl (SyntaxError (lit "Unexpected end of JSON input"))).
Proof.
  exact (@corrupt_translation_not_replaced asciiLower plainProse unit
           parseEmptyObject printEmptyObject (lit "01/01/2025") [] []
           (fun _ => []) sampleTranslationFile
           (fun _ => inl (lit "Unexpected end of JSON input"))
           (fun _ => inr sampleCollection) (fun _ => []) sampleFiles
           (lit "collection.json") englishOptions (lit "en") (lit "{}")
           (lit "Unexpected end of JSON input") eq_refl eq_refl eq_refl
           eq_refl).
Defined.


Lemma first_generation_toc_agrees_witness :
  generateTableOfContentsV1 asciiLower sampleTwoLevels
  = generateTableOfContents asciiLower sampleTwoLevels.
Proof.
  apply first_generation_toc_agrees.
  intros folder subFolder [<-|[]] [<-|[<-|[]]] Hfolder;
    [|discriminate Hfolder].
  split; [discriminate|]. intros endpoint [<-|[]]. reflexivity.
Defined.

Example two_levels_table_of_contents :
  linkTargets (generateTableOfContentsV1 asciiLower sampleTwoLevels)
  = [lit "#folder-users"; lit "#folder-users-admin";
     lit "#endpoint-users-admin-list"; lit "#endpoint-users-get-user"].
Proof. vm_compute. reflexivity. Qed.



(** The recursive walker gives the same collection a section. *)
Example request_at_top_later :
  sectionIds
    (generateFoldersContent asciiLower plainProse parseEmptyObject
       printEmptyObject legacyLabels (folders sampleRequestAtTop))
  = [lit "folder-ping"].
Proof. vm_compute. reflexivity. Qed.

Lemma cli_divider_only_difference_witness :
  cli asciiLower plainProse parseEmptyObject printEmptyObject
    (lit "01/01/2025") [] [] (fun _ => []) sampleTranslationFile
    (fun _ => inr legacyLabels) (fun _ => inr sampleCollection)
    (fun _ => []) sampleFiles
    [lit "node"; lit "cli.js"; lit "collection.json"; lit "--lang=fr"]
  = cliV1 asciiLower plainProse parseEmptyObject printEmptyObject
    (lit "01/01/2025") [] [] (fun _ => []) sampleTranslationFile
    (fun _ => inr legacyLabels) (fun _ => inr sampleCollection)
    (fun _ => []) sampleFiles
      [lit "node"; lit "cli.js"; lit "collection.json"; lit "--lang=fr"].
Proof.
  apply cli_divider_only_difference. repeat constructor.
Defined.


Lemma request_body_not_escaped_witness :
  List.map textContent
    (flat_map (byTag "code")
       (requestBodySection legacyLabels (Some sampleMarkupBody)))
  = [lit "<b>hi</b>"].
Proof.
  refine (proj1 (proj2 (@request_body_not_escaped legacyLabels
                          sampleMarkupBody (lit "<b>hi</b>") eq_refl eq_refl
                          _)) _).
  - discriminate.
  - repeat constructor; discriminate.
Defined.

Example request_body_first_generation :
  List.map textContent
    (flat_map (byTag "code") (requestBodySectionV1 (Some sampleMarkupBody)))
  = [lit "&lt;b&gt;hi&lt;/b&gt;"].
Proof. vm_compute. reflexivity. Qed.
